(** * blackd: the formatting daemon of black, and the batch driver's contracts

    A shallow embedding of [blackd.py] (the request handler [new_req] and the
    entry point [main]) together with the parts of the batch driver that the
    test-suite pins down (run report, cache), and the properties proved about
    them.

    Layout:
    - [Py]      the fragment of the Python runtime the daemon relies on:
                bytes, text, the strict UTF-8 codec, exceptions;
    - [Black]   what [blackd.py] imports from the [black] module;
    - [Blackd]  [new_req] and [main], written in a state-and-exception monad;
    - [Batch]   run report, cache and batch driver;
    - [TestSupport]  the helpers [test_black.py] defines for its tests. *)

From Stdlib Require Import ZArith NArith List String Ascii Bool Lia.
From Stdlib.Strings Require Import Byte.
From Stdlib Require Import DecimalString.
From stdpp Require Import base option list gmap sets strings countable.

Local Open Scope list_scope.

(** How a call ends: normally with a value, or abruptly. *)
Inductive completion (X A : Type) :=
| Ok (a : A)
| Raise (x : X).
Arguments Ok {X A} a.
Arguments Raise {X A} x.

(* ===================================================================== *)
(** ** The Python runtime fragment                                        *)
(* ===================================================================== *)

Module Py.

(** [bytes]: an immutable sequence of integers in [0, 256). *)
Definition bytes := list byte.

(** A bytes literal such as [b"OK\n"]. *)
Definition b (s : string) : bytes := list_byte_of_string s.

(** Text.  A [str] is a sequence of code points.  The strings the daemon
    handles are decoded from UTF-8 or built by the formatter from decoded
    text, so their code points are Unicode scalar values: at most U+10FFFF
    and outside the surrogate block U+D800..U+DFFF.  The type carries that
    fact, which is what makes [encode] below total. *)
Definition is_scalar (n : N) : bool :=
  ((n <? 0xD800) || ((0xDFFF <? n) && (n <=? 0x10FFFF)))%N.

Record char := mk_char { code : N; code_ok : is_scalar code = true }.

Definition str := list char.

(** The character with the given code point; numbers that are no scalar
    value are replaced by U+FFFD. *)
Definition char_of_N (n : N) : char :=
  match bool_dec (is_scalar n) true with
  | left H => mk_char n H
  | right _ => mk_char 0xFFFD eq_refl
  end.

Definition char_of_ascii (a : ascii) : char := char_of_N (N_of_ascii a).

(** A text literal (ASCII). *)
Definition u (s : string) : str := map char_of_ascii (list_ascii_of_string s).

Definition byte_of_N (n : N) : byte :=
  match Byte.of_N n with Some x => x | None => x00 end.

(** The UTF-8 form of a code point: one to four bytes. *)
Definition encode_point (n : N) : bytes :=
  if (n <? 0x80)%N then [byte_of_N n]
  else if (n <? 0x800)%N then
    [byte_of_N (N.lor 0xC0 (N.shiftr n 6));
     byte_of_N (N.lor 0x80 (N.land n 0x3F))]
  else if (n <? 0x10000)%N then
    [byte_of_N (N.lor 0xE0 (N.shiftr n 12));
     byte_of_N (N.lor 0x80 (N.land (N.shiftr n 6) 0x3F));
     byte_of_N (N.lor 0x80 (N.land n 0x3F))]
  else
    [byte_of_N (N.lor 0xF0 (N.shiftr n 18));
     byte_of_N (N.lor 0x80 (N.land (N.shiftr n 12) 0x3F));
     byte_of_N (N.lor 0x80 (N.land (N.shiftr n 6) 0x3F));
     byte_of_N (N.lor 0x80 (N.land n 0x3F))].

Definition encode_char (c : char) : bytes := encode_point (code c).

(** [str.encode("utf8")] *)
Definition encode (s : str) : bytes := flat_map encode_char s.

(** Valid UTF-8: the encoding of some text. *)
Definition valid_utf8 (x : bytes) : Prop := exists s, encode s = x.

(** Exceptions.  Every value of this type is an instance of Python's
    [Exception]; [NothingChanged] is the one subclass the daemon singles
    out.  [UnicodeDecodeError] keeps the attributes its message is built
    from; [Error] stands for an instance of any other subclass and carries
    its [str(e)]. *)
Inductive exn :=
| NothingChanged
| UnicodeDecodeError (obj : bytes) (start stop : nat) (reason : string)
| UnboundLocalError (name : string)
| AttributeError (msg : string)
| OSError (msg : str)
| Error (msg : str).

Definition hex_digit (n : N) : ascii :=
  if (n <? 10)%N then ascii_of_N (48 + n) else ascii_of_N (87 + n).

(** [%02x] of a byte. *)
Definition hex2 (x : byte) : string :=
  let n := Byte.to_N x in
  String (hex_digit (n / 16)) (String (hex_digit (n mod 16)) EmptyString).

(** [%d] of a natural number. *)
Definition dec (n : nat) : string := NilEmpty.string_of_uint (Nat.to_uint n).

(** [str(e)].  For [UnicodeDecodeError] this is the interpreter's message:
    one offending byte is shown with its value, a longer range by its
    bounds. *)
Definition str_of_exn (e : exn) : str :=
  match e with
  | NothingChanged => []
  | UnicodeDecodeError obj start stop reason =>
      if bool_decide (start < length obj) && bool_decide (stop = S start) then
        u ("'utf-8' codec can't decode byte 0x"
             ++ hex2 (nth start obj x00) ++ " in position " ++ dec start
             ++ ": " ++ reason)
      else
        u ("'utf-8' codec can't decode bytes in position "
             ++ dec start ++ "-" ++ dec (stop - 1) ++ ": " ++ reason)
  | UnboundLocalError name =>
      u ("local variable '" ++ name ++ "' referenced before assignment")
  | AttributeError msg => u msg
  | OSError msg => msg
  | Error msg => msg
  end.

(** The result of an operation that may raise. *)
Abbreviation result := (completion exn).

(** (b & 0xC0) == 0x80 *)
Definition is_continuation (x : N) : bool := (N.land x 0xC0 =? 0x80)%N.

Definition cons_point (n : N) (r : result (list N)) : result (list N) :=
  match r with
  | Ok points => Ok (n :: points)
  | Raise e => Raise e
  end.

(** The code points of UTF-8 data, following the interpreter's strict
    decoder: [obj] is the whole object being decoded, [pos] the offset of
    [s] in it.  A lead byte below 0xC2 or above 0xF4 is
    an invalid start byte; a sequence cut short by the end of the data is
    an error ranging to the end; a byte that cannot continue the sequence
    (including the second bytes that would give an overlong form, a
    surrogate or a value above U+10FFFF) ends an error range that starts at
    the lead byte. *)
Fixpoint decode_from (obj : bytes) (pos : nat) (s : bytes) : result (list N) :=
  let invalid_start := Raise (UnicodeDecodeError obj pos (pos + 1) "invalid start byte") in
  let truncated := Raise (UnicodeDecodeError obj pos (length obj) "unexpected end of data") in
  let invalid_continuation k :=
    Raise (UnicodeDecodeError obj pos (pos + k) "invalid continuation byte") in
  match s with
  | [] => Ok []
  | b1 :: s1 =>
    let ch := Byte.to_N b1 in
    if (ch <? 0x80)%N then cons_point ch (decode_from obj (pos + 1) s1)
    else if (ch <? 0xC2)%N then invalid_start
    else if (ch <? 0xE0)%N then
      match s1 with
      | [] => truncated
      | b2 :: s2 =>
        let ch2 := Byte.to_N b2 in
        if negb (is_continuation ch2) then invalid_continuation 1
        else cons_point (N.lor (N.shiftl (N.land ch 0x1F) 6) (N.land ch2 0x3F))
                       (decode_from obj (pos + 2) s2)
      end
    else if (ch <? 0xF0)%N then
      match s1 with
      | [] => truncated
      | b2 :: s2 =>
        let ch2 := Byte.to_N b2 in
        if negb (is_continuation ch2)
           || (if (ch2 <? 0xA0)%N then (ch =? 0xE0)%N else (ch =? 0xED)%N)
        then invalid_continuation 1
        else
          match s2 with
          | [] => truncated
          | b3 :: s3 =>
            let ch3 := Byte.to_N b3 in
            if negb (is_continuation ch3) then invalid_continuation 2
            else cons_point (N.lor (N.shiftl (N.land ch 0x0F) 12)
                              (N.lor (N.shiftl (N.land ch2 0x3F) 6) (N.land ch3 0x3F)))
                           (decode_from obj (pos + 3) s3)
          end
      end
    else if (ch <? 0xF5)%N then
      match s1 with
      | [] => truncated
      | b2 :: s2 =>
        let ch2 := Byte.to_N b2 in
        if negb (is_continuation ch2)
           || (if (ch2 <? 0x90)%N then (ch =? 0xF0)%N else (ch =? 0xF4)%N)
        then invalid_continuation 1
        else
          match s2 with
          | [] => truncated
          | b3 :: s3 =>
            let ch3 := Byte.to_N b3 in
            if negb (is_continuation ch3) then invalid_continuation 2
            else
              match s3 with
              | [] => truncated
              | b4 :: s4 =>
                let ch4 := Byte.to_N b4 in
                if negb (is_continuation ch4) then invalid_continuation 3
                else cons_point
                       (N.lor (N.shiftl (N.land ch 0x07) 18)
                          (N.lor (N.shiftl (N.land ch2 0x3F) 12)
                             (N.lor (N.shiftl (N.land ch3 0x3F) 6) (N.land ch4 0x3F))))
                       (decode_from obj (pos + 4) s4)
              end
          end
      end
    else invalid_start
  end.

(** [bytes.decode("utf8")] with the default strict error handler. *)
Definition decode (x : bytes) : result str :=
  match decode_from x 0 x with
  | Ok points => Ok (map char_of_N points)
  | Raise e => Raise e
  end.

End Py.


(* ===================================================================== *)
(** ** State and exceptions                                               *)
(* ===================================================================== *)

(** A computation over a state [S] completes normally with a value or
    abruptly with an [X]; the state reached is kept in both cases, as
    effects performed before a [raise] are not undone. *)
Module Eff.

Definition M (X S A : Type) : Type := S -> completion X A * S.

#[global] Instance M_ret {X S} : MRet (M X S) := fun A a s => (Ok a, s).

#[global] Instance M_bind {X S} : MBind (M X S) := fun A B f m s =>
  match m s with
  | (Ok a, s') => f a s'
  | (Raise x, s') => (Raise x, s')
  end.

Definition raise {X S A} (x : X) : M X S A := fun s => (Raise x, s).

Definition lift {X S A} (r : completion X A) : M X S A := fun s => (r, s).

Definition modify {X S} (f : S -> S) : M X S unit := fun s => (Ok tt, f s).

(** Whether an abrupt completion leaves the statement it occurs in, so that
    enclosing [finally] clauses run.  Exceptions do; a call that never
    returns does not. *)
Class Unwind (X : Type) := unwinds : X -> bool.

(** One [except] clause: [None] when the clause does not match. *)
Definition clause (X S A : Type) : Type := X -> option (M X S A).

(** The first clause that matches, in source order. *)
Fixpoint dispatch {X S A} (cs : list (clause X S A)) (x : X) : option (M X S A) :=
  match cs with
  | [] => None
  | c :: cs' => match c x with Some h => Some h | None => dispatch cs' x end
  end.

(** [try: body / except ...: ...]; an exception raised by a handler is not
    offered to the sibling clauses. *)
Definition try_except {X S A} (body : M X S A) (cs : list (clause X S A)) : M X S A :=
  fun s =>
    match body s with
    | (Ok a, s') => (Ok a, s')
    | (Raise x, s') =>
        match dispatch cs x with
        | Some h => h s'
        | None => (Raise x, s')
        end
    end.

(** [try: body / finally: fin].  [fin] runs however [body] leaves; when
    [fin] itself raises, that exception replaces the completion of
    [body]. *)
Definition try_finally {X S A} `{Unwind X} (body : M X S A) (fin : M X S unit) : M X S A :=
  fun s =>
    match body s with
    | (Ok a, s') =>
        match fin s' with
        | (Ok _, s'') => (Ok a, s'')
        | (Raise y, s'') => (Raise y, s'')
        end
    | (Raise x, s') =>
        if unwinds x then
          match fin s' with
          | (Ok _, s'') => (Raise x, s'')
          | (Raise y, s'') => (Raise y, s'')
          end
        else (Raise x, s')
    end.

End Eff.

Import Py Eff.

#[global] Instance exn_unwind : Unwind exn := fun _ => true.

(* ===================================================================== *)
(** ** What the daemon imports from [black]                               *)
(* ===================================================================== *)

Module Black.

(** Modelled from the spec: [black.FileMode] is not among the sources; the
    spec describes it as the dialect flags of a configuration: extended
    grammar ([py36]), stub-file layout ([pyi]) and the string-normalization
    toggle. *)
Record FileMode := mkFileMode {
  py36 : bool;
  pyi : bool;
  no_string_normalization : bool
}.

Definition from_configuration (py36 pyi skip_string_normalization : bool) : FileMode :=
  mkFileMode py36 pyi skip_string_normalization.

Definition AUTO_DETECT : FileMode := mkFileMode false false false.
Definition PYTHON36 : FileMode := mkFileMode true false false.
Definition PYI : FileMode := mkFileMode false true false.

End Black.

Import Black.

(* ===================================================================== *)
(** ** blackd.py                                                          *)
(* ===================================================================== *)

Module Blackd.

(** The line feed, for literals such as [b"OK\n"]. *)
Definition nl : string := String (ascii_of_nat 10) EmptyString.

(** The reader of a connection: [incoming] is what [await reader.read()]
    produces, the whole request body or the exception the transport
    reports.  In the second case the reader holds that exception
    ([StreamReader.set_exception]), and holds it from then on. *)
Record StreamReader := { incoming : result bytes }.

(** The writer of a connection; [peername] is the transport's peer address
    as an f-string renders it. *)
Record StreamWriter := { peername : str }.

(** The method calls a writer receives, recorded as they are made. *)
Inductive wcall :=
| Write (data : bytes)
| Drain
| Close.

(** The state one run of the handler works on: the lines [black.out] has
    printed, the calls made on the connection's writer so far (oldest
    first), the local variable [peer] ([None] while unbound), and the
    exception the reader of the connection has been seen to hold.  The
    writer of a connection is made with its reader and asks it for that
    exception when it drains. *)
Record frame := mkFrame {
  stderr : list str;
  calls : list wcall;
  peer : option str;
  exception : option exn
}.

(** A handler is entered with its locals unbound, an untouched writer and
    a reader that has not failed. *)
Definition enter (log : list str) : frame := mkFrame log [] None None.

(** Computations of the handler. *)
Definition HandlerM := M exn frame.

(** [black.out]: prints a message on the standard error stream. *)
Definition out (msg : str) : HandlerM unit :=
  modify (fun s => mkFrame (stderr s ++ [msg]) (calls s) (peer s) (exception s)).

Definition call (c : wcall) : HandlerM unit :=
  modify (fun s => mkFrame (stderr s) (calls s ++ [c]) (peer s) (exception s)).

(** [writer.write(data)] hands the data to the transport and returns. *)
Definition write (writer : StreamWriter) (data : bytes) : HandlerM unit := call (Write data).

(** [self._reader.exception()], as the writer of the connection evaluates
    it. *)
Definition reader_exception : HandlerM (option exn) := fun s => (Ok (exception s), s).

(** [await writer.drain()].  [StreamWriter.drain] starts by asking the
    reader of the connection for its exception and raises it when there is
    one; otherwise it returns once the transport has taken what was
    written.  A peer that is gone by the time the response is written (the
    transport then makes [drain] raise [ConnectionResetError]) is left out:
    a request that was read is answered over a transport that takes the
    answer. *)
Definition drain (writer : StreamWriter) : HandlerM unit :=
  call Drain;;
  exc ← reader_exception;
  match exc with
  | Some e => raise e
  | None => mret tt
  end.

(** [writer.close()] *)
Definition close (writer : StreamWriter) : HandlerM unit := call Close.

Definition get_extra_info (writer : StreamWriter) (name : string) : HandlerM str :=
  mret (peername writer).

(** [await reader.read()]: the request body, or the exception the reader
    holds, raised. *)
Definition read (reader : StreamReader) : HandlerM bytes := fun s =>
  match incoming reader with
  | Ok data => (Ok data, s)
  | Raise e => (Raise e, mkFrame (stderr s) (calls s) (peer s) (Some e))
  end.

Definition store_peer (p : str) : HandlerM unit :=
  modify (fun s => mkFrame (stderr s) (calls s) (Some p) (exception s)).

Definition load_peer : HandlerM str := fun s =>
  match peer s with
  | Some p => (Ok p, s)
  | None => (Raise (UnboundLocalError "peer"), s)
  end.

Definition except_NothingChanged {A} (h : HandlerM A) : clause exn frame A := fun e =>
  match e with
  | NothingChanged => Some h
  | _ => None
  end.

Definition except_Exception {A} (h : exn -> HandlerM A) : clause exn frame A := fun e =>
  Some (h e).

Section Handler.

(** [black.format_file_contents(src, line_length=, fast=, mode=)]: the
    formatted text, or [NothingChanged], or the exception of a failed parse
    or safety check. *)
Variable format_file_contents : str -> Z -> bool -> FileMode -> result str.

Definition new_req (reader : StreamReader) (writer : StreamWriter)
    (line_length : Z) (fast : bool) (mode : FileMode) : HandlerM unit :=
  try_finally
    (try_except
       (p ← get_extra_info writer "peername";
        store_peer p;;
        req_bytes ← read reader;
        peer ← load_peer;
        out (u "[" ++ peer ++ u ("] got " ++ dec (length req_bytes) ++ " bytes"));;
        req_str ← lift (decode req_bytes);
        formatted_str ← lift (format_file_contents req_str line_length fast mode);
        let formatted := encode formatted_str in
        write writer (b ("OK" ++ nl) ++ formatted);;
        peer ← load_peer;
        out (u "[" ++ peer
               ++ u ("] format done, sending " ++ dec (length formatted) ++ " bytes")))
       [ except_NothingChanged
           (write writer (b ("OK NO CHANGE" ++ nl));;
            peer ← load_peer;
            out (u "[" ++ peer ++ u "] format done, no changes"));
         except_Exception (fun e =>
            write writer (b ("ERROR" ++ nl) ++ encode (str_of_exn e));;
            peer ← load_peer;
            out (u "[" ++ peer ++ u "] error while formatting: " ++ str_of_exn e)) ])
    (drain writer;;
     close writer).

(** What the statements of the [try] block before the first [write] come
    to: the formatted text, or the exception that ended them. *)
Definition attempt (reader : StreamReader) (line_length : Z) (fast : bool)
    (mode : FileMode) : result str :=
  match incoming reader with
  | Raise e => Raise e
  | Ok req_bytes =>
      match decode req_bytes with
      | Raise e => Raise e
      | Ok req_str => format_file_contents req_str line_length fast mode
      end
  end.

(** The wire contract as the spec words it (section 6): [OK] and the
    formatted text, [OK NO CHANGE], or [ERROR] and the message. *)
Definition wire_response (r : result str) : bytes :=
  match r with
  | Ok formatted => b ("OK" ++ nl) ++ encode formatted
  | Raise NothingChanged => b ("OK NO CHANGE" ++ nl)
  | Raise e => b ("ERROR" ++ nl) ++ encode (str_of_exn e)
  end.

(** The calls of the finally clause that follow [drain]: [close], when
    [drain] returns. *)
Definition closing (reader : StreamReader) : list wcall :=
  match incoming reader with
  | Ok _ => [Close]
  | Raise _ => []
  end.

(** The payloads of the [write] calls among [cs]: the responses sent. *)
Definition responses (cs : list wcall) : list bytes :=
  flat_map (fun c => match c with Write d => [d] | _ => [] end) cs.

(** The calls the writer of a connection has received once the handler,
    entered with [log] already printed, is done. *)
Definition served (reader : StreamReader) (writer : StreamWriter)
    (line_length : Z) (fast : bool) (mode : FileMode) (log : list str) : list wcall :=
  calls (snd (new_req reader writer line_length fast mode (enter log))).

End Handler.

(** *** The entry point *)

(** The listening server [asyncio.start_server] returns. *)
Record Server := { host : str; port : Z }.

(** The method calls a server receives. *)
Inductive scall :=
| ServerClose
| ServerWaitClosed.

(** The statements of [new_req] before its first [await].  The handler of
    an accepted connection runs them at once and is then suspended in
    [await reader.read()] until the request has arrived. *)
Definition until_read (writer : StreamWriter) : HandlerM unit :=
  p ← get_extra_info writer "peername";
  store_peer p.

(** What the event loop delivers while it runs.
    - [Connection]: the request of an accepted connection has arrived, in
      full or as an exception of the transport; the handler, suspended in
      [await reader.read()] until then, goes on to its end.
    - [Pending]: a connection is accepted whose request does not arrive
      while the events last; its handler stays suspended in
      [await reader.read()].
    - [Interrupt]: the interrupt that stops the process from outside,
      raised while the loop waits for the next event.  An interrupt raised
      inside the synchronous part of a handler is not among the events. *)
Inductive event :=
| Connection (reader : StreamReader) (writer : StreamWriter)
| Pending (writer : StreamWriter)
| Interrupt.

(** The event of accepting a connection, given its two streams. *)
Definition accepted (c : StreamReader * StreamWriter) : event :=
  Connection (fst c) (snd c).

(** How [main] can end other than by returning: with an exception, with
    the [KeyboardInterrupt] of an interrupt (which is no [Exception]), or
    not at all within the events observed. *)
Inductive abrupt :=
| Exc (e : exn)
| KeyboardInterrupt
| Forever.

#[global] Instance abrupt_unwind : Unwind abrupt := fun x =>
  match x with
  | Forever => false
  | _ => true
  end.

(** The state of the daemon process: what was printed, the local variable
    [server] of [main] ([None] while unbound), the calls the server object
    received, and for every connection among the events, in their order,
    the calls its writer has received. *)
Record process := mkProcess {
  printed : list str;
  server : option Server;
  server_calls : list scall;
  connections : list (list wcall)
}.

Definition boot : process := mkProcess [] None [] [].

(** Computations of the entry point. *)
Definition MainM := M abrupt process.

(** [%d] of an integer. *)
Definition decZ (z : Z) : string := NilEmpty.string_of_int (Z.to_int z).

(** The names bound at the top level of the module [blackd]: its imports
    and its two functions. *)
Definition module_names : list string :=
  ["asyncio"; "partial"; "Optional"; "black"; "click"; "main"; "new_req"]%string.

(** [blackd.<name>], evaluated from outside the module. *)
Definition module_getattr (name : string) : result string :=
  if bool_decide (name ∈ module_names) then Ok name
  else Raise (AttributeError ("module 'blackd' has no attribute '" ++ name ++ "'")).

Section Main.

Variable format_file_contents : str -> Z -> bool -> FileMode -> result str.

(** [black.__version__] *)
Variable version : str.

Definition black_out (msg : str) : MainM unit :=
  modify (fun s => mkProcess (printed s ++ [msg]) (server s) (server_calls s) (connections s)).

Definition store_server (srv : Server) : MainM unit :=
  modify (fun s => mkProcess (printed s) (Some srv) (server_calls s) (connections s)).

Definition load_server : MainM Server := fun s =>
  match server s with
  | Some srv => (Ok srv, s)
  | None => (Raise (Exc (UnboundLocalError "server")), s)
  end.

Definition server_call (c : scall) : MainM unit :=
  modify (fun s => mkProcess (printed s) (server s) (server_calls s ++ [c]) (connections s)).

(** [loop.run_until_complete(asyncio.start_server(req_handler, host=, port=))]:
    [binding] is what binding the listening socket gives, nothing or the
    [OSError] of an address that cannot be bound. *)
Definition start_server (binding : result unit) (bind_host : str) (bind_port : Z) : MainM Server :=
  match binding with
  | Ok _ => mret {| host := bind_host; port := bind_port |}
  | Raise e => raise (Exc e)
  end.

(** The loop runs the handler of a connection whose request has arrived.
    The handler prints on the process's standard error; the calls its
    writer received are recorded.  A handler's own completion, an
    exception included, stays with its task and does not reach
    [run_forever]. *)
Definition serve (req_handler : StreamReader -> StreamWriter -> HandlerM unit)
    (reader : StreamReader) (writer : StreamWriter) : MainM unit :=
  modify (fun s =>
    let f := snd (req_handler reader writer (enter (printed s))) in
    mkProcess (stderr f) (server s) (server_calls s) (connections s ++ [calls f])).

(** The loop starts the handler of a connection whose request does not
    arrive: the handler runs up to [await reader.read()] and stays
    there. *)
Definition suspend (writer : StreamWriter) : MainM unit :=
  modify (fun s =>
    let f := snd (until_read writer (enter (printed s))) in
    mkProcess (stderr f) (server s) (server_calls s) (connections s ++ [calls f])).

(** [loop.run_forever()] over the events delivered.  Nothing in the module
    calls [loop.stop()], so the call does not return: it serves connections
    until an interrupt is raised out of it.  Handlers that are suspended
    then are left where they are. *)
Fixpoint run_forever (req_handler : StreamReader -> StreamWriter -> HandlerM unit)
    (events : list event) : MainM unit :=
  match events with
  | [] => raise Forever
  | Connection reader writer :: rest =>
      serve req_handler reader writer;;
      run_forever req_handler rest
  | Pending writer :: rest =>
      suspend writer;;
      run_forever req_handler rest
  | Interrupt :: _ => raise KeyboardInterrupt
  end.

Definition main (line_length : Z) (fast pyi py36 skip_string_normalization : bool)
    (bind_host : str) (bind_port : Z)
    (binding : result unit) (events : list event) : MainM unit :=
  let mode := from_configuration py36 pyi skip_string_normalization in
  let req_handler := fun reader writer =>
    new_req format_file_contents reader writer line_length fast mode in
  try_finally
    (srv ← start_server binding bind_host bind_port;
     store_server srv;;
     let ver := version in
     black_out (u "blackd version " ++ ver ++ u " listening on " ++ bind_host
                  ++ u (" port " ++ decZ bind_port));;
     run_forever req_handler events)
    (srv ← load_server;
     server_call ServerClose;;
     srv ← load_server;
     server_call ServerWaitClosed).

End Main.

End Blackd.

(* ===================================================================== *)
(** ** The batch driver: run report, cache, exit status                   *)
(* ===================================================================== *)

(** [black.py] itself is not among the sources; its test-suite is.  The
    definitions of this module follow the spec, with the names, signatures
    and constants the tests use. *)
Module Batch.

Definition path := string.

(** *** Run report *)

Inductive Changed :=
| Changed_NO
| Changed_CACHED
| Changed_YES.

Inductive WriteBack :=
| WriteBack_NO
| WriteBack_YES
| WriteBack_DIFF.

(** Modelled from the spec: the class [black.Report], the accumulator of
    per-file outcomes of one invocation.  The counters are the three that
    the summary line in [test_report_normal] prints. *)
Record Report := mkReport {
  check : bool;
  change_count : nat;
  same_count : nat;
  failure_count : nat
}.

Definition new_report (check : bool) : Report := mkReport check 0 0 0.

(** The assignment [report.check = value]. *)
Definition set_check (r : Report) (value : bool) : Report :=
  mkReport value (change_count r) (same_count r) (failure_count r).

(** Modelled from the spec: [Report.done], one file processed without
    error.  A cached skip counts as unchanged. *)
Definition done (r : Report) (src : path) (changed : Changed) : Report :=
  match changed with
  | Changed_YES => mkReport (check r) (S (change_count r)) (same_count r) (failure_count r)
  | Changed_NO | Changed_CACHED => mkReport (check r) (change_count r) (S (same_count r)) (failure_count r)
  end.

(** Modelled from the spec: [Report.failed], one file that failed. *)
Definition failed (r : Report) (src : path) (message : str) : Report :=
  mkReport (check r) (change_count r) (same_count r) (S (failure_count r)).

(** Modelled from the spec: [Report.path_ignored], which only reports. *)
Definition path_ignored (r : Report) (p : path) (message : str) : Report := r.

(** Modelled from the spec: the property [Report.return_code].  A failure
    gives 123; otherwise a change under check mode gives 1; otherwise 0. *)
Definition return_code (r : Report) : Z :=
  if bool_decide (0 < failure_count r) then 123
  else if bool_decide (0 < change_count r) && check r then 1
  else 0.

(** *** Cache *)

(** Modelled from the spec: the cache record of a file, its modification
    time and its size in bytes.  The two are only ever compared for
    equality; times are counted in clock ticks. *)
Definition CacheInfo : Type := Z * Z.

(** The configuration fingerprint: maximum line length and dialect flags. *)
Record fingerprint := mkFingerprint {
  fp_line_length : Z;
  fp_mode : FileMode
}.

#[global] Instance FileMode_eq_dec : EqDecision FileMode.
Proof. solve_decision. Defined.

#[global] Instance fingerprint_eq_dec : EqDecision fingerprint.
Proof. solve_decision. Defined.

#[global] Instance fingerprint_countable : Countable fingerprint.
Proof.
  refine (inj_countable'
    (fun f => (fp_line_length f, py36 (fp_mode f), pyi (fp_mode f),
               no_string_normalization (fp_mode f)))
    (fun t => match t with
              | (l, a, b0, c) => mkFingerprint l (mkFileMode a b0 c)
              end) _).
  intros [l [a b0 c]]. reflexivity.
Defined.

(** What is stored under one fingerprint: a table of records, or data that
    cannot be read back. *)
Inductive cache_file :=
| Pickle (records : gmap path CacheInfo)
| Garbage.

(** Modelled from the spec: the persisted cache, one store per
    configuration fingerprint. *)
Abbreviation cache_dir := (gmap fingerprint cache_file).

(** Modelled from the spec: [black.read_cache]; a missing or unreadable
    store reads as the empty mapping. *)
Definition read_cache (line_length : Z) (mode : FileMode) (d : cache_dir)
    : gmap path CacheInfo :=
  match d !! mkFingerprint line_length mode with
  | Some (Pickle records) => records
  | Some Garbage | None => ∅
  end.

Section Files.

(** Modelled from the spec: [black.get_cache_info], the current
    (modification time, size) of a file. *)
Variable get_cache_info : path -> CacheInfo.

(** The records of [sources] merged into [cache]. *)
Definition merged (cache : gmap path CacheInfo) (sources : list path)
    : gmap path CacheInfo :=
  foldr (fun src acc => <[src := get_cache_info src]> acc) cache sources.

(** Modelled from the spec: [black.write_cache]; stores [cache] updated
    with fresh records of [sources] under the fingerprint.  [writable]
    tells whether the store can be written; a failed write is swallowed. *)
Definition write_cache (cache : gmap path CacheInfo) (sources : list path)
    (line_length : Z) (mode : FileMode) (writable : bool) (d : cache_dir) : cache_dir :=
  if writable then <[mkFingerprint line_length mode := Pickle (merged cache sources)]> d
  else d.

(** Whether the record of [src] in [cache] is its current snapshot. *)
Definition fresh (cache : gmap path CacheInfo) (src : path) : Prop :=
  cache !! src = Some (get_cache_info src).

#[global] Instance fresh_dec cache src : Decision (fresh cache src).
Proof. unfold fresh. apply _. Defined.

(** Modelled from the spec: [black.filter_cached]: splits the candidates
    into those to process and those already done. *)
Definition filter_cached (cache : gmap path CacheInfo) (sources : gset path)
    : gset path * gset path :=
  (filter (fun src => ¬ fresh cache src) sources,
   filter (fun src => fresh cache src) sources).

End Files.

(** *** One invocation *)

(** What is to be formatted: files, or the standard input stream. *)
Inductive source :=
| Paths (srcs : gset path)
| Stdin.

Section Run.

(** Formatting one file in place: whether it changed, or the exception of
    a failed attempt. *)
Variable format_file_in_place : path -> result bool.

(** Formatting the standard input stream. *)
Variable format_stdin_to_stdout : result bool.

(** The files' snapshots when the run starts and when the cache is
    written (a file rewritten in between has a new one). *)
Variable stat_before stat_after : path -> CacheInfo.

(** Whether the cache store can be written. *)
Variable writable : bool.

Definition outcome (r : Report) (src : path) (res : result bool) : Report :=
  match res with
  | Ok true => done r src Changed_YES
  | Ok false => done r src Changed_NO
  | Raise e => failed r src (str_of_exn e)
  end.

Definition succeeded (src : path) : bool :=
  match format_file_in_place src with
  | Ok _ => true
  | Raise _ => false
  end.

(** Modelled from the spec: the batch driver over files: split the
    candidates with the cache, format the misses, merge the outcomes into
    the report, then write the cache for the files formatted without
    error.  Only a run that writes files back does so: a run in check mode
    reports and writes nothing, a run in diff mode previews and persists
    nothing. *)
Definition schedule_formatting (sources : gset path) (line_length : Z)
    (write_back : WriteBack) (mode : FileMode) (report : Report) (d : cache_dir)
    : Report * cache_dir :=
  let cache := read_cache line_length mode d in
  let '(todo, cached) := filter_cached stat_before cache sources in
  let report := foldl (fun r src => done r src Changed_CACHED) report (elements cached) in
  let report :=
    foldl (fun r src => outcome r src (format_file_in_place src)) report (elements todo) in
  let formatted := List.filter succeeded (elements todo) in
  match write_back with
  | WriteBack_YES =>
      (report, write_cache stat_after cache formatted line_length mode writable d)
  | WriteBack_NO | WriteBack_DIFF => (report, d)
  end.

(** Modelled from the spec: one run.  Input from the standard input
    stream has no identity to key a record on: the cache is neither read
    nor written. *)
Definition run (src : source) (line_length : Z) (write_back : WriteBack)
    (mode : FileMode) (report : Report) (d : cache_dir) : Report * cache_dir :=
  match src with
  | Stdin => (outcome report "-" format_stdin_to_stdout, d)
  | Paths srcs => schedule_formatting srcs line_length write_back mode report d
  end.

(** An attempt that failed, and one that reformatted (or, in a run that
    writes nothing back, would reformat) its file. *)
Definition failed_attempt (res : result bool) : bool :=
  match res with
  | Raise _ => true
  | Ok _ => false
  end.

Definition changed_attempt (res : result bool) : bool :=
  match res with
  | Ok true => true
  | _ => false
  end.

(** The format attempts of a run, as they are merged into the report: the
    one on the standard input, or one for each file that the cache does
    not mark as already done. *)
Definition attempts (src : source) (line_length : Z) (mode : FileMode) (d : cache_dir)
    : list (result bool) :=
  match src with
  | Stdin => [format_stdin_to_stdout]
  | Paths srcs =>
      map format_file_in_place
        (elements (fst (filter_cached stat_before (read_cache line_length mode d) srcs)))
  end.

(** Whether a regular expression given for [--include] or [--exclude]
    compiles. *)
Variable re_compile_ok : string -> bool.

(** Modelled from the spec: the command [black.main], from its options to
    the exit status.  Malformed patterns are reported before any file is
    processed, with status 2. *)
Definition main (line_length : Z) (check diff : bool) (mode : FileMode)
    (include exclude : string) (src : source) (d : cache_dir) : Z * cache_dir :=
  let write_back :=
    if diff then WriteBack_DIFF else if check then WriteBack_NO else WriteBack_YES in
  if negb (re_compile_ok include) then (2%Z, d)
  else if negb (re_compile_ok exclude) then (2%Z, d)
  else
    let '(report, d') := run src line_length write_back mode (new_report check) d in
    (return_code report, d').

End Run.

End Batch.

(* ===================================================================== *)
(** ** The helpers of the test-suite                                     *)
(* ===================================================================== *)

(** The functions [test_black.py] defines for its tests: [dump_to_stderr],
    [read_data], [event_loop], [async_test] and
    [BlackTestCase.assertFormatEqual], with the operations on text they
    use. *)
Module TestSupport.

(** [x == y] on texts. *)
Definition same (x y : str) : bool := bool_decide (map code x = map code y).

(** [sep.join(parts)] *)
Fixpoint join (sep : str) (parts : list str) : str :=
  match parts with
  | [] => []
  | x :: rest =>
      match rest with
      | [] => x
      | _ :: _ => x ++ sep ++ join sep rest
      end
  end.

(** [s.endswith(suffix)] and [s.startswith(prefix)] *)
Definition endswith (s suffix : str) : bool :=
  bool_decide (map code suffix `suffix_of` map code s).

Definition startswith (s prefix : str) : bool :=
  bool_decide (map code prefix `prefix_of` map code s).

(** [c.isspace()]: the characters [strip] removes. *)
Definition isspace (c : char) : bool :=
  let n := code c in
  ((9 <=? n) && (n <=? 13) || (28 <=? n) && (n <=? 32)
   || (n =? 0x85) || (n =? 0xA0) || (n =? 0x1680)
   || (0x2000 <=? n) && (n <=? 0x200A)
   || (n =? 0x2028) || (n =? 0x2029) || (n =? 0x202F) || (n =? 0x205F)
   || (n =? 0x3000))%N.

(** [s.lstrip()], [s.rstrip()], [s.strip()] *)
Fixpoint lstrip (s : str) : str :=
  match s with
  | [] => []
  | c :: rest => if isspace c then lstrip rest else s
  end.

Fixpoint rstrip (s : str) : str :=
  match s with
  | [] => []
  | c :: rest =>
      match rstrip rest with
      | [] => if isspace c then [] else [c]
      | kept => c :: kept
      end
  end.

Definition strip (s : str) : str := lstrip (rstrip s).

(** [s.replace(old, new)]: the occurrences of [old] are found from the
    left and do not overlap; [skip] counts the characters of an occurrence
    still to pass over.  An empty [old] occurs before every character and
    at the end. *)
Fixpoint replace_from (old new : str) (skip : nat) (s : str) : str :=
  match s with
  | [] => []
  | c :: rest =>
      match skip with
      | S k => replace_from old new k rest
      | O =>
          if startswith s old
          then new ++ replace_from old new (length old - 1) rest
          else c :: replace_from old new 0 rest
      end
  end.

Definition replace (s old new : str) : str :=
  match old with
  | [] => new ++ flat_map (fun c => c :: new) s
  | _ :: _ => replace_from old new 0 s
  end.

Definition LF : str := u Blackd.nl.

(** *** [dump_to_stderr] *)

Definition dump_to_stderr (output : list str) : str :=
  LF ++ join LF output ++ LF.

(** *** [read_data] *)

Definition EMPTY_LINE : str :=
  u "# EMPTY LINE WITH WHITESPACE" ++ u " (this comment will be removed)".

(** The file [read_data] opens for a test name. *)
Definition file_name (name : str) : str :=
  if existsb (endswith name) [u ".py"; u ".pyi"; u ".out"; u ".diff"]
  then name
  else name ++ u ".py".

(** The list that [result] is bound to. *)
Inductive target :=
| to_input
| to_output.

(** The two lists of the loop, and which of them [result] is bound to. *)
Record collected := mkCollected {
  _input : list str;
  _output : list str;
  result_alias : target
}.

(** The line as the loop sees it. *)
Definition cleaned (line : str) : str := replace line EMPTY_LINE [].

Definition is_marker (line : str) : bool :=
  same (rstrip (cleaned line)) (u "# output").

(** One turn of the loop over the lines. *)
Definition collect (st : collected) (line : str) : collected :=
  let line' := cleaned line in
  if same (rstrip line') (u "# output") then
    mkCollected (_input st) (_output st) to_output
  else
    match result_alias st with
    | to_input => mkCollected (_input st ++ [line']) (_output st) (result_alias st)
    | to_output => mkCollected (_input st) (_output st ++ [line']) (result_alias st)
    end.

(** [read_data] from the lines of the file on. *)
Definition read_data_lines (lines : list str) : str * str :=
  let st := foldl collect (mkCollected [] [] to_input) lines in
  let output' :=
    match _input st, _output st with
    | _ :: _, [] => _input st
    | _, _ => _output st
    end in
  (strip (join [] (_input st)) ++ LF, strip (join [] output') ++ LF).

(** [read_data(name, data)]; [readlines data file] gives the lines of the
    file of that name in the data directory of the tests ([data]) or in the
    directory of the tests itself, or the error of opening it. *)
Definition read_data (readlines : bool -> str -> result (list str))
    (name : str) (data : bool) : result (str * str) :=
  match readlines data (file_name name) with
  | Ok lines => Ok (read_data_lines lines)
  | Raise e => Raise e
  end.

(** *** [event_loop] and [async_test] *)

(** The event loops of the process: the current one, how many have been
    made (loops are numbered as they are made), and those closed. *)
Record loops := mkLoops {
  current : nat;
  made : nat;
  closed_loops : list nat
}.

Definition L := M exn loops.

(** [policy.get_event_loop()] *)
Definition get_event_loop : L nat := fun s => (Ok (current s), s).

(** [policy.new_event_loop()] *)
Definition new_event_loop : L nat := fun s =>
  (Ok (made s), mkLoops (current s) (S (made s)) (closed_loops s)).

(** [asyncio.set_event_loop(loop)], [policy.set_event_loop(loop)] *)
Definition set_event_loop (loop : nat) : L unit :=
  modify (fun s => mkLoops loop (made s) (closed_loops s)).

(** [loop.close()] *)
Definition loop_close (loop : nat) : L unit :=
  modify (fun s => mkLoops (current s) (made s) (loop :: closed_loops s)).

(** [loop.run_until_complete(coroutine)]: a closed loop refuses to run. *)
Definition run_until_complete {A} (loop : nat) (coroutine : L A) : L A := fun s =>
  if bool_decide (loop ∈ closed_loops s)
  then (Raise (Error (u "Event loop is closed")), s)
  else coroutine s.

(** The context manager [event_loop(close)] around the block [body]. *)
Definition event_loop {A} (close : bool) (body : L A) : L A :=
  old_loop ← get_event_loop;
  loop ← new_event_loop;
  set_event_loop loop;;
  try_finally body
    (set_event_loop old_loop;;
     if close then loop_close loop else mret tt).

(** The wrapper [async_test(f)] makes of a coroutine function, applied. *)
Definition async_test {A} (f : L A) : L unit :=
  event_loop true
    (loop ← get_event_loop;
     run_until_complete loop f;;
     mret tt).

(** *** [BlackTestCase.assertFormatEqual] *)

(** What [black.out] and [black.err] have printed. *)
Record console := mkConsole {
  out_lines : list str;
  err_lines : list str
}.

Definition C := M exn console.

Definition out (message : str) : C unit :=
  modify (fun s => mkConsole (out_lines s ++ [message]) (err_lines s)).

Definition err (message : str) : C unit :=
  modify (fun s => mkConsole (out_lines s) (err_lines s ++ [message])).

(** Truth of [os.environ.get(name)]: set, and not to the empty string. *)
Definition truthy (value : option str) : bool :=
  match value with
  | Some (_ :: _) => true
  | Some [] | None => false
  end.

Section AssertFormatEqual.

(** Parsing a text and printing its tree: [black.lib2to3_parse] followed
    by a [DebugVisitor] run over the node, which prints with [black.out]
    and may raise at any point. *)
Variable show_tree : str -> C unit.

(** The message [assertEqual] gives for two different texts. *)
Variable assertion_message : str -> str -> str.

(** [os.environ.get("SKIP_AST_PRINT")] *)
Variable SKIP_AST_PRINT : option str.

(** [self.assertEqual(first, second)]; [AssertionError] is an [Exception]. *)
Definition assertEqual (first second : str) : C unit :=
  if same first second then mret tt
  else raise (Error (assertion_message first second)).

Definition assertFormatEqual (expected actual : str) : C unit :=
  (if negb (same actual expected) && negb (truthy SKIP_AST_PRINT) then
     out (u "Expected tree:");;
     try_except (show_tree expected) [fun ve => Some (err (str_of_exn ve))];;
     out (u "Actual tree:");;
     try_except (show_tree actual) [fun ve => Some (err (str_of_exn ve))]
   else mret tt);;
  assertEqual expected actual.

(** The console once the tree of [text] has been printed under
    [heading]: the heading on the output, then what the printing leaves,
    and, when the printing raised, the message of its exception on the
    error stream. *)
Definition tree_printed (heading text : str) (s : console) : console :=
  match show_tree text (mkConsole (out_lines s ++ [heading]) (err_lines s)) with
  | (Ok _, s') => s'
  | (Raise ve, s') => mkConsole (out_lines s') (err_lines s' ++ [str_of_exn ve])
  end.

End AssertFormatEqual.

(** *** Notions the properties are stated with *)

(** A text without a line feed. *)
Definition newline_free (line : str) : Prop := Forall (fun c => code c <> 10%N) line.

(** A line of a data file that is not the marker. *)
Definition is_text_line (line : str) : bool := negb (is_marker line).

(** A text that is a body without white space at either end, followed by
    one line feed. *)
Definition stripped (text : str) : Prop :=
  exists body,
    text = body ++ LF
    /\ (forall c, head body = Some c -> isspace c = false)
    /\ (forall c, list.last body = Some c -> isspace c = false).

(** The state in which the block of [event_loop] starts. *)
Definition entered (s : loops) : loops :=
  mkLoops (made s) (S (made s)) (closed_loops s).

End TestSupport.

(* ===================================================================== *)
(** ** Scenarios                                                          *)
(* ===================================================================== *)

(** Concrete inputs on which the statements below are exercised: the three
    requests of the daemon's tests with a stand-in for the formatter that
    answers exactly those, and small batch runs. *)
Module Scenario.

Import Blackd.

(** The double quote. *)
Definition dq : string := String (ascii_of_nat 34) EmptyString.

Definition hello_single : string := "print('hello world')".
Definition hello_double : string := "print(" ++ dq ++ "hello world" ++ dq ++ ")" ++ nl.
Definition garbled : string := "what even (is this".

Definition same_text (s : str) (lit : string) : bool :=
  bool_decide (map code s = map code (u lit)).

(** A formatter that reformats [hello_single], leaves [hello_double] as it
    is and cannot parse anything else. *)
Definition toy_format (src : str) (line_length : Z) (fast : bool) (mode : FileMode)
    : result str :=
  if same_text src hello_single then Ok (u hello_double)
  else if same_text src hello_double then Raise NothingChanged
  else Raise (Error (u "Cannot parse: 1:11: " ++ src)).

Definition mock_reader (request : string) : StreamReader := {| incoming := Ok (b request) |}.
Definition mock_writer : StreamWriter := {| peername := u "Mock peer" |}.

(** A request body that is no UTF-8: a lone byte 0xff. *)
Definition broken_reader : StreamReader := {| incoming := Ok [xff] |}.

(** A batch run over two files, one of which no longer parses.  The cache
    still holds the record the failing file got when it was last formatted,
    at another size. *)
Definition failing : Batch.path := "failing.py".
Definition clean : Batch.path := "clean.py".
Definition dirty : Batch.path := "dirty.py".

Definition two_files : gset Batch.path := {[ failing; clean ]}.

Definition toy_format_file (src : Batch.path) : result bool :=
  if bool_decide (src = failing) then Raise (Error (u "Cannot parse: 1:4: not actually python"))
  else if bool_decide (src = dirty) then Ok true
  else Ok false.

Definition toy_stat (src : Batch.path) : Batch.CacheInfo :=
  if bool_decide (src = failing) then (1700000000, 19)%Z else (1600000000, 15)%Z.

Definition stale_cache : gmap Batch.fingerprint Batch.cache_file :=
  {[ Batch.mkFingerprint 88 AUTO_DETECT := Batch.Pickle {[ failing := (1500000000, 14)%Z ]} ]}.

(** Every pattern compiles except the one of [test_invalid_include_exclude]. *)
Definition toy_re_compile_ok (pattern : string) : bool :=
  negb (bool_decide (pattern = "**()(!!*)")).

(** The cache after a plain run over the two files, started with the stale
    record. *)
Definition cache_after_run : gmap Batch.fingerprint Batch.cache_file :=
  snd (Batch.run toy_format_file (Ok false) toy_stat toy_stat true
         (Batch.Paths two_files) 88 Batch.WriteBack_YES AUTO_DETECT
         (Batch.new_report false) stale_cache).

(** The exit status of a run in check mode over a file that would be
    reformatted and one that fails, with an empty cache. *)
Definition check_status : Z :=
  fst (Batch.main toy_format_file (Ok false) toy_stat toy_stat true toy_re_compile_ok
         88 true false AUTO_DETECT "\.pyi?$" "/build/"
         (Batch.Paths {[ dirty; failing ]}) ∅).

(** A cache written under line length 1, as in
    [test_read_cache_line_lengths], with a current record for one file and
    an outdated one for the other. *)
Definition cache_of_one : gmap Batch.fingerprint Batch.cache_file :=
  {[ Batch.mkFingerprint 1 AUTO_DETECT :=
       Batch.Pickle {[ clean := toy_stat clean; failing := (0, 0)%Z ]} ]}.

(** A connection the peer resets while the request is read: the
    transport hands the error to the reader. *)
Definition reset_reader : StreamReader :=
  {| incoming := Raise (OSError (u "[Errno 104] Connection reset by peer")) |}.

(** The letter [a] followed by the first two bytes of a sequence of
    three. *)
Definition truncated : bytes := [x61; xe2; x82].
Definition truncated_reader : StreamReader := {| incoming := Ok truncated |}.

(** Two data files in small, one with the marker and one without, and the
    directory that holds them. *)
Definition with_marker : list str :=
  [u ("x  = 1" ++ nl); u ("# output" ++ nl); u nl; u ("x = 1" ++ nl)].
Definition without_marker : list str := [u ("x = 1" ++ nl); u nl].

Definition toy_readlines (data : bool) (name : str) : result (list str) :=
  if TestSupport.same name (u "with_marker.py") then Ok with_marker
  else if TestSupport.same name (u "without_marker.py") then Ok without_marker
  else Raise (OSError (u "[Errno 2] No such file or directory")).

(** Two loops made, the first closed, the second current. *)
Definition two_loops : TestSupport.loops := TestSupport.mkLoops 1 2 [0%nat].

(** A coroutine that fails. *)
Definition failing_coroutine : TestSupport.L unit :=
  raise (Error (u "no response")).

End Scenario.

(* ===================================================================== *)
(** ** Properties of the codec                                            *)
(* ===================================================================== *)

(** Decoding and encoding are inverse to each other: the strict decoder
    accepts exactly the byte sequences that are the encoding of some text,
    and gives that text. *)
Module CodecFacts.

Local Open Scope N_scope.

(** Division and remainder by a constant, for [lia]. *)
#[local] Ltac Zify.zify_post_hook ::= Z.to_euclidean_division_equations.

(** *** Bytes and their values *)

Lemma byte_of_to_N x : byte_of_N (Byte.to_N x) = x.
Proof. unfold byte_of_N. by rewrite Byte.of_to_N. Qed.

Lemma to_N_byte_of_N x : x < 256 -> Byte.to_N (byte_of_N x) = x.
Proof.
  intros Hx. unfold byte_of_N.
  destruct (Byte.of_N x) as [y|] eqn:E.
  - by apply Byte.to_of_N.
  - apply Byte.of_N_None_iff in E. lia.
Qed.

(** *** Masks, shifts and unions as arithmetic *)

(** The union of a multiple of [2 ^ k] with a number below [2 ^ k] is
    their sum: no bit is shared. *)
Lemma lor_disjoint a k c : c < 2 ^ k -> N.lor (a * 2 ^ k) c = a * 2 ^ k + c.
Proof.
  intros Hc.
  assert (N.land (a * 2 ^ k) c = 0) as Hland.
  { apply N.bits_inj. intros m. rewrite N.land_spec, N.bits_0.
    destruct (N.lt_ge_cases m k) as [Hlt|Hge].
    - by rewrite N.mul_pow2_bits_low.
    - destruct (N.eq_dec c 0) as [->|Hnz]; [by rewrite N.bits_0, andb_false_r|].
      rewrite (N.bits_above_log2 c m), andb_false_r; [done|].
      apply N.log2_lt_pow2; [lia|].
      eapply N.lt_le_trans; [exact Hc|]. by apply N.pow_le_mono_r. }
  rewrite <- N.lxor_lor by done. symmetry. by apply N.add_nocarry_lxor.
Qed.

Lemma shiftl_lor hi k lo : lo < 2 ^ k -> N.lor (N.shiftl hi k) lo = hi * 2 ^ k + lo.
Proof. intros. rewrite N.shiftl_mul_pow2. by apply lor_disjoint. Qed.

Lemma shiftl_lor_6 hi lo : lo < 64 -> N.lor (N.shiftl hi 6) lo = hi * 64 + lo.
Proof. apply (shiftl_lor hi 6 lo). Qed.

Lemma shiftl_lor_12 hi lo : lo < 4096 -> N.lor (N.shiftl hi 12) lo = hi * 4096 + lo.
Proof. apply (shiftl_lor hi 12 lo). Qed.

Lemma shiftl_lor_18 hi lo : lo < 262144 -> N.lor (N.shiftl hi 18) lo = hi * 262144 + lo.
Proof. apply (shiftl_lor hi 18 lo). Qed.

Lemma shiftr_6 x : N.shiftr x 6 = x / 64.
Proof. apply (N.shiftr_div_pow2 x 6). Qed.

Lemma shiftr_12 x : N.shiftr x 12 = x / 4096.
Proof. apply (N.shiftr_div_pow2 x 12). Qed.

Lemma shiftr_18 x : N.shiftr x 18 = x / 262144.
Proof. apply (N.shiftr_div_pow2 x 18). Qed.

Lemma land_0x3F x : N.land x 0x3F = x mod 64.
Proof. change 0x3F with (N.ones 6). apply N.land_ones. Qed.

Lemma land_0x1F x : N.land x 0x1F = x mod 32.
Proof. change 0x1F with (N.ones 5). apply N.land_ones. Qed.

Lemma land_0x0F x : N.land x 0x0F = x mod 16.
Proof. change 0x0F with (N.ones 4). apply N.land_ones. Qed.

Lemma land_0x07 x : N.land x 0x07 = x mod 8.
Proof. change 0x07 with (N.ones 3). apply N.land_ones. Qed.

(** The tag bits of the four kinds of byte. *)
Lemma lor_0x80 x : x < 64 -> N.lor 0x80 x = 128 + x.
Proof. intros. change 0x80 with (2 * 2 ^ 6). rewrite lor_disjoint; simpl; lia. Qed.

Lemma lor_0xC0 x : x < 32 -> N.lor 0xC0 x = 192 + x.
Proof. intros. change 0xC0 with (6 * 2 ^ 5). rewrite lor_disjoint; simpl; lia. Qed.

Lemma lor_0xE0 x : x < 16 -> N.lor 0xE0 x = 224 + x.
Proof. intros. change 0xE0 with (14 * 2 ^ 4). rewrite lor_disjoint; simpl; lia. Qed.

Lemma lor_0xF0 x : x < 8 -> N.lor 0xF0 x = 240 + x.
Proof. intros. change 0xF0 with (30 * 2 ^ 3). rewrite lor_disjoint; simpl; lia. Qed.

(** Rewrites the masks, shifts and unions of the codec as arithmetic,
    innermost union first. *)
Ltac to_arith :=
  rewrite ?shiftr_6, ?shiftr_12, ?shiftr_18,
    ?land_0x1F, ?land_0x0F, ?land_0x07, ?land_0x3F;
  rewrite ?shiftl_lor_6 by lia;
  rewrite ?shiftl_lor_12 by lia;
  rewrite ?shiftl_lor_18 by lia;
  rewrite ?lor_0xC0, ?lor_0xE0, ?lor_0xF0, ?lor_0x80 by lia.

(** *** Continuation bytes *)

Lemma is_continuation_range x :
  is_continuation (Byte.to_N x) = true -> 128 <= Byte.to_N x < 192.
Proof.
  destruct x; vm_compute; intros H; try discriminate H; split; discriminate || reflexivity.
Qed.

Lemma is_continuation_intro x : 128 <= x < 192 -> is_continuation x = true.
Proof.
  intros Hx. rewrite <- (to_N_byte_of_N x) in * by lia.
  revert Hx. generalize (byte_of_N x). intros y.
  destruct y; vm_compute; intros [H1 H2]; try reflexivity;
    exfalso; first [discriminate H2 | apply H1; reflexivity].
Qed.

(** Turns the tests the decoder has passed into bounds. *)
Ltac bounds :=
  repeat
    match goal with
    | H : (_ <? _) = true |- _ => apply N.ltb_lt in H
    | H : (_ <? _) = false |- _ => apply N.ltb_ge in H
    | H : negb _ = false |- _ => apply negb_false_iff in H
    | H : _ || _ = false |- _ => apply orb_false_elim in H as [? ?]
    | H : is_continuation (Byte.to_N _) = true |- _ => apply is_continuation_range in H
    end.

(** Decides the tests of the decoder on bytes known as arithmetic
    expressions. *)
Ltac decide_tests :=
  repeat
    match goal with
    | |- context [(?x <? ?y)] =>
        first [ rewrite (proj2 (N.ltb_lt x y)) by lia
              | rewrite (proj2 (N.ltb_ge x y)) by lia ]
    | |- context [(?x =? ?y)] =>
        first [ rewrite (proj2 (N.eqb_neq x y)) by lia
              | rewrite (proj2 (N.eqb_eq x y)) by lia ]
    | |- context [is_continuation ?x] =>
        rewrite (is_continuation_intro x) by lia
    end.

(** *** What the decoder accepts, it gives back encoded the same way *)

(** The code point of a sequence the decoder accepts is a scalar value,
    and its encoding is that sequence.  One lemma per length; the second
    byte's extra test is what excludes overlong forms, surrogates and
    values above U+10FFFF. *)
Lemma point1 ch :
  ch < 0x80 -> is_scalar ch = true /\ encode_point ch = [byte_of_N ch].
Proof.
  intros Hch. unfold is_scalar, encode_point. decide_tests. done.
Qed.

Lemma point2 ch ch2 :
  0xC2 <= ch < 0xE0 -> 128 <= ch2 < 192 ->
  let v := N.lor (N.shiftl (N.land ch 0x1F) 6) (N.land ch2 0x3F) in
  is_scalar v = true /\ encode_point v = [byte_of_N ch; byte_of_N ch2].
Proof.
  intros Hch Hch2 v.
  assert (v = (ch - 192) * 64 + (ch2 - 128)) as -> by (subst v; to_arith; lia).
  unfold is_scalar, encode_point. decide_tests. to_arith.
  split; [done|]. repeat f_equal; lia.
Qed.

Lemma point3 ch ch2 ch3 :
  0xE0 <= ch < 0xF0 -> 128 <= ch2 < 192 ->
  (if ch2 <? 0xA0 then ch =? 0xE0 else ch =? 0xED) = false ->
  128 <= ch3 < 192 ->
  let v := N.lor (N.shiftl (N.land ch 0x0F) 12)
             (N.lor (N.shiftl (N.land ch2 0x3F) 6) (N.land ch3 0x3F)) in
  is_scalar v = true /\ encode_point v = [byte_of_N ch; byte_of_N ch2; byte_of_N ch3].
Proof.
  intros Hch Hch2 Hguard Hch3 v.
  assert (v = (ch - 224) * 4096 + (ch2 - 128) * 64 + (ch3 - 128)) as ->
    by (subst v; to_arith; lia).
  assert ((ch2 < 160 /\ ch <> 224) \/ (160 <= ch2 /\ ch <> 237)) as Hcases.
  { destruct (ch2 <? 0xA0) eqn:E; bounds; apply N.eqb_neq in Hguard; lia. }
  split.
  - unfold is_scalar. rewrite orb_true_iff, andb_true_iff, !N.ltb_lt, N.leb_le. lia.
  - unfold encode_point. decide_tests. to_arith. repeat f_equal; lia.
Qed.

Lemma point4 ch ch2 ch3 ch4 :
  0xF0 <= ch < 0xF5 -> 128 <= ch2 < 192 ->
  (if ch2 <? 0x90 then ch =? 0xF0 else ch =? 0xF4) = false ->
  128 <= ch3 < 192 -> 128 <= ch4 < 192 ->
  let v := N.lor (N.shiftl (N.land ch 0x07) 18)
             (N.lor (N.shiftl (N.land ch2 0x3F) 12)
                (N.lor (N.shiftl (N.land ch3 0x3F) 6) (N.land ch4 0x3F))) in
  is_scalar v = true
  /\ encode_point v = [byte_of_N ch; byte_of_N ch2; byte_of_N ch3; byte_of_N ch4].
Proof.
  intros Hch Hch2 Hguard Hch3 Hch4 v.
  assert (v = (ch - 240) * 262144 + (ch2 - 128) * 4096 + (ch3 - 128) * 64 + (ch4 - 128))
    as -> by (subst v; to_arith; lia).
  assert ((ch2 < 144 /\ ch <> 240) \/ (144 <= ch2 /\ ch <> 244)) as Hcases.
  { destruct (ch2 <? 0x90) eqn:E; bounds; apply N.eqb_neq in Hguard; lia. }
  split.
  - unfold is_scalar. rewrite orb_true_iff, andb_true_iff, !N.ltb_lt, N.leb_le. lia.
  - unfold encode_point. decide_tests. to_arith. repeat f_equal; lia.
Qed.

Local Arguments N.land : simpl never.
Local Arguments N.lor : simpl never.
Local Arguments N.shiftl : simpl never.
Local Arguments N.ltb : simpl never.
Local Arguments N.eqb : simpl never.
Local Arguments Byte.to_N : simpl never.
Local Arguments is_continuation : simpl never.
Local Arguments encode_point : simpl never.

Lemma decode_from_sound obj : forall s pos points,
  decode_from obj pos s = Ok points ->
  Forall (fun n => is_scalar n = true) points /\ flat_map encode_point points = s.
Proof.
  intros s. remember (length s) as n eqn:Hn. revert s Hn.
  induction n as [n IH] using lt_wf_ind.
  intros [|b1 s1] Hn pos points; simpl; [intros [= <-]; by split|].
  simpl in Hn.
  repeat
    match goal with
    | |- Raise _ = Ok _ -> _ => discriminate
    | |- (if ?c then _ else _) = _ -> _ => let G := fresh "G" in destruct c eqn:G
    | |- match ?l with [] => _ | _ :: _ => _ end = _ -> _ =>
        let x := fresh "bx" in
        destruct l as [|x l]; simpl in Hn
    | |- cons_point _ ?r = Ok _ -> _ =>
        let E := fresh "E" in
        let rest := fresh "rest" in
        destruct r as [rest|] eqn:E; simpl; [intros [= <-] | discriminate];
        eapply IH in E as [Hrest Henc]; [| | reflexivity]; [|simpl in *; lia];
        bounds
    end.
  - destruct (point1 (Byte.to_N b1)) as [Hs He]; [lia|].
    split; [by constructor|]. simpl. by rewrite He, byte_of_to_N, Henc.
  - destruct (point2 (Byte.to_N b1) (Byte.to_N bx)) as [Hs He]; [lia..|].
    split; [by constructor|]. simpl. by rewrite He, !byte_of_to_N, Henc.
  - destruct (point3 (Byte.to_N b1) (Byte.to_N bx) (Byte.to_N bx0)) as [Hs He];
      [lia | lia | assumption | lia |].
    split; [by constructor|]. simpl. by rewrite He, !byte_of_to_N, Henc.
  - destruct (point4 (Byte.to_N b1) (Byte.to_N bx) (Byte.to_N bx0) (Byte.to_N bx1))
      as [Hs He]; [lia | lia | assumption | lia | lia |].
    split; [by constructor|]. simpl. by rewrite He, !byte_of_to_N, Henc.
Qed.

(** The decoder never has to replace a code point. *)
Lemma code_char_of_N n : is_scalar n = true -> code (char_of_N n) = n.
Proof.
  intros H. unfold char_of_N. destruct (bool_dec (is_scalar n) true); [done|contradiction].
Qed.

(** Decoded text encodes to the bytes it was decoded from. *)
Theorem decode_encode x s : decode x = Ok s -> encode s = x.
Proof.
  unfold decode. destruct (decode_from x 0 x) as [points|e] eqn:E; [|discriminate].
  intros [= <-]. apply decode_from_sound in E as [Hs He].
  unfold encode. rewrite <- He. clear He.
  induction Hs as [|n points Hn Hs IH]; simpl; [done|].
  unfold encode_char at 1. by rewrite code_char_of_N, IH.
Qed.

(** *** What is encoded, the decoder accepts *)

Lemma decode_from_encode_point obj pos n rest :
  is_scalar n = true ->
  decode_from obj pos (encode_point n ++ rest)
  = cons_point n (decode_from obj (pos + length (encode_point n)) rest).
Proof.
  unfold is_scalar. rewrite orb_true_iff, andb_true_iff, !N.ltb_lt, N.leb_le.
  intros Hn. unfold encode_point.
  destruct (n <? 0x80) eqn:G1; [|destruct (n <? 0x800) eqn:G2;
    [|destruct (n <? 0x10000) eqn:G3]]; bounds; simpl app; simpl length; to_arith.
  - cbn [decode_from]. rewrite to_N_byte_of_N by lia. cbv zeta. by decide_tests.
  - remember (_ :: rest) as s1 eqn:Hs1 in |- * at 1.
    cbn [decode_from]. rewrite to_N_byte_of_N by lia. cbv zeta. decide_tests.
    subst s1. cbv beta match.
    rewrite !to_N_byte_of_N by lia. decide_tests. cbv beta match.
    to_arith. f_equal. lia.
  - remember (_ :: _ :: rest) as s1 eqn:Hs1 in |- * at 1.
    cbn [decode_from]. rewrite to_N_byte_of_N by lia. cbv zeta. decide_tests.
    subst s1. cbv beta match.
    rewrite !to_N_byte_of_N by lia. decide_tests.
    destruct (128 + n / 64 mod 64 <? 160) eqn:G4; bounds; decide_tests;
      cbv beta match; to_arith; f_equal; lia.
  - remember (_ :: _ :: _ :: rest) as s1 eqn:Hs1 in |- * at 1.
    cbn [decode_from]. rewrite to_N_byte_of_N by lia. cbv zeta. decide_tests.
    subst s1. cbv beta match.
    rewrite !to_N_byte_of_N by lia. decide_tests.
    destruct (128 + n / 4096 mod 64 <? 144) eqn:G4; bounds; decide_tests;
      cbv beta match; to_arith; f_equal; lia.
Qed.

Lemma decode_from_encode obj : forall points pos,
  Forall (fun n => is_scalar n = true) points ->
  decode_from obj pos (flat_map encode_point points) = Ok points.
Proof.
  induction points as [|n points IH]; intros pos Hs; [done|].
  inversion Hs as [|? ? Hn Hs']; subst. simpl flat_map.
  rewrite decode_from_encode_point by done. by rewrite IH.
Qed.

(** Characters are equal when their code points are. *)
Lemma char_eq c1 c2 : code c1 = code c2 -> c1 = c2.
Proof.
  destruct c1 as [n1 H1], c2 as [n2 H2]. simpl. intros ->.
  f_equal. apply Eqdep_dec.UIP_dec, bool_dec.
Qed.

(** Encoded text decodes to itself. *)
Theorem encode_decode s : decode (encode s) = Ok s.
Proof.
  unfold decode, encode.
  assert (flat_map encode_char s = flat_map encode_point (map code s)) as ->.
  { induction s as [|c s IH]; simpl; [done|]. by rewrite IH. }
  rewrite decode_from_encode.
  - f_equal. induction s as [|c s IH]; simpl; [done|].
    rewrite IH. f_equal. apply char_eq, code_char_of_N, code_ok.
  - clear. induction s as [|c s IH]; simpl; constructor; [apply code_ok | exact IH].
Qed.

(** *** How decoding fails *)

(** A [UnicodeDecodeError] is all that decoding raises, and it is about
    the object decoded. *)
Lemma decode_from_raises obj : forall s pos e,
  decode_from obj pos s = Raise e ->
  exists start stop reason, e = UnicodeDecodeError obj start stop reason.
Proof.
  intros s. remember (length s) as n eqn:Hn. revert s Hn.
  induction n as [n IH] using lt_wf_ind.
  intros [|b1 s1] Hn pos e; simpl; [discriminate|].
  simpl in Hn.
  repeat
    match goal with
    | |- Raise _ = Raise _ -> _ => intros [= <-]; eauto
    | |- cons_point _ ?r = Raise _ -> _ =>
        let E := fresh "E" in
        destruct r eqn:E; simpl; [discriminate | intros [= <-]];
        eapply IH; [| reflexivity | exact E]; simpl in *; lia
    | |- (if ?c then _ else _) = _ -> _ => destruct c
    | |- match ?l with [] => _ | _ :: _ => _ end = _ -> _ =>
        let x := fresh "bx" in
        destruct l as [|x l]; simpl in Hn
    end.
Qed.

Lemma decode_raises req e :
  decode req = Raise e ->
  exists start stop reason, e = UnicodeDecodeError req start stop reason.
Proof.
  unfold decode. destruct (decode_from req 0 req) as [points|e'] eqn:E; [discriminate|].
  intros [= <-]. eapply decode_from_raises, E.
Qed.

(** Decoding succeeds exactly on valid UTF-8. *)
Lemma decode_valid x : valid_utf8 x <-> exists s, decode x = Ok s.
Proof.
  split.
  - intros [s <-]. exists s. apply encode_decode.
  - intros [s Hs]. exists s. by apply decode_encode.
Qed.

Lemma decode_invalid x : ~ valid_utf8 x -> exists e, decode x = Raise e.
Proof.
  intros Hx. destruct (decode x) as [s|e] eqn:E; [|eauto].
  destruct Hx. apply decode_valid. eauto.
Qed.

(** *** Where decoding fails *)

(** The encoding of a text given by its code points. *)
Lemma encode_chars points :
  Forall (fun n => is_scalar n = true) points ->
  encode (map char_of_N points) = flat_map encode_point points.
Proof.
  induction 1 as [|n points Hn Hs IH]; simpl; [done|].
  unfold encode in *. simpl. unfold encode_char at 1. by rewrite code_char_of_N, IH.
Qed.

(** The error of the decoder names a range that is not empty and lies in
    the data after the position reached, and what was decoded up to it is
    the encoding of code points. *)
Lemma decode_from_error_range obj : forall s pos o start stop reason,
  (length obj = pos + length s)%nat ->
  decode_from obj pos s = Raise (UnicodeDecodeError o start stop reason) ->
  (pos <= start /\ start < stop /\ stop <= length obj)%nat
  /\ exists points,
       Forall (fun n => is_scalar n = true) points
       /\ flat_map encode_point points = take (start - pos)%nat s.
Proof.
  intros s. remember (length s) as n eqn:Hn. revert s Hn.
  induction n as [n IH] using lt_wf_ind.
  intros [|b1 s1] Hn pos o start stop reason Hlen; simpl; [discriminate|].
  simpl in Hn, Hlen.
  repeat
    match goal with
    | |- Raise _ = Raise _ -> _ =>
        intros [= <- <- <- <-]; split; [lia|];
        exists []; rewrite Nat.sub_diag; by split
    | |- (if ?c then _ else _) = _ -> _ => let G := fresh "G" in destruct c eqn:G
    | |- match ?l with [] => _ | _ :: _ => _ end = _ -> _ =>
        let x := fresh "bx" in
        destruct l as [|x l]; simpl in Hn, Hlen
    | |- cons_point _ ?r = Raise _ -> _ =>
        let E := fresh "E" in
        destruct r as [|e] eqn:E; simpl; [discriminate | intros [= ->]];
        eapply IH in E as [Hrange (points & Hs & He)];
          [| | reflexivity |]; [| simpl in *; lia | simpl in *; lia];
        bounds
    end.
  - destruct (point1 (Byte.to_N b1)) as [Hv Hev]; [lia|].
    split; [lia|]. eexists (_ :: points). split; [by constructor|].
    replace (start - pos)%nat with (1 + (start - (pos + 1)))%nat by lia.
    simpl. by rewrite Hev, byte_of_to_N, He.
  - destruct (point2 (Byte.to_N b1) (Byte.to_N bx)) as [Hv Hev]; [lia..|].
    split; [lia|]. eexists (_ :: points). split; [by constructor|].
    replace (start - pos)%nat with (2 + (start - (pos + 2)))%nat by lia.
    simpl. by rewrite Hev, !byte_of_to_N, He.
  - destruct (point3 (Byte.to_N b1) (Byte.to_N bx) (Byte.to_N bx0)) as [Hv Hev];
      [lia | lia | assumption | lia |].
    split; [lia|]. eexists (_ :: points). split; [by constructor|].
    replace (start - pos)%nat with (3 + (start - (pos + 3)))%nat by lia.
    simpl. by rewrite Hev, !byte_of_to_N, He.
  - destruct (point4 (Byte.to_N b1) (Byte.to_N bx) (Byte.to_N bx0) (Byte.to_N bx1))
      as [Hv Hev]; [lia | lia | assumption | lia | lia |].
    split; [lia|]. eexists (_ :: points). split; [by constructor|].
    replace (start - pos)%nat with (4 + (start - (pos + 4)))%nat by lia.
    simpl. by rewrite Hev, !byte_of_to_N, He.
Qed.

(** The range a decoding error names is not empty and lies in the data,
    and everything before it is valid UTF-8. *)
Lemma decode_error_range x o start stop reason :
  decode x = Raise (UnicodeDecodeError o start stop reason) ->
  (start < stop /\ stop <= length x)%nat /\ valid_utf8 (take start x).
Proof.
  unfold decode. destruct (decode_from x 0 x) as [points|e] eqn:E; [discriminate|].
  intros [= ->]. apply decode_from_error_range in E as [Hrange (points & Hs & He)]; [|done].
  split; [lia|]. exists (map char_of_N points).
  rewrite encode_chars by done. by rewrite He, Nat.sub_0_r.
Qed.

End CodecFacts.

(* ===================================================================== *)
(** ** Properties of the request handler                                  *)
(* ===================================================================== *)

Module HandlerFacts.

Import Blackd.

Arguments u : simpl never.
Arguments b : simpl never.
Arguments encode : simpl never.
Arguments str_of_exn : simpl never.
Arguments dec : simpl never.
Arguments decode : simpl never.

(** Unfolds the monad and the primitive operations of the handler. *)
Ltac run_handler :=
  unfold new_req, try_finally, try_except, read, lift, get_extra_info,
    store_peer, load_peer, out, write, drain, reader_exception, close, call,
    modify, raise, enter;
  unfold mbind, M_bind, mret, M_ret; simpl.

Section Handler.

Variable format_file_contents : str -> Z -> bool -> FileMode -> result str.

#[local] Abbreviation new_req := (Blackd.new_req format_file_contents).
#[local] Abbreviation served := (Blackd.served format_file_contents).
#[local] Abbreviation attempt := (Blackd.attempt format_file_contents).

(** The handler refines the wire contract: whatever the attempt comes to,
    it makes one [write] and then calls [drain]; it goes on to [close] and
    returns when the request was read, and ends with the exception of the
    reader otherwise. *)
Lemma new_req_wire reader writer line_length fast mode log :
  exists lines,
    new_req reader writer line_length fast mode (enter log)
    = (match incoming reader with Ok _ => Ok tt | Raise e => Raise e end,
       mkFrame (log ++ lines)
         (Write (wire_response (attempt reader line_length fast mode))
            :: Drain :: closing reader)
         (Some (peername writer))
         (match incoming reader with Ok _ => None | Raise e => Some e end)).
Proof.
  unfold attempt, closing. run_handler.
  destruct (incoming reader) as [req_bytes|e]; simpl.
  - destruct (decode req_bytes) as [req_str|e]; simpl.
    + destruct (format_file_contents req_str line_length fast mode) as [dst|e]; simpl.
      * rewrite <- !app_assoc. eexists; reflexivity.
      * destruct e; simpl; rewrite <- !app_assoc; eexists; reflexivity.
    + destruct e; simpl; rewrite <- !app_assoc; eexists; reflexivity.
  - destruct e; simpl; eexists; reflexivity.
Qed.

Lemma served_wire reader writer line_length fast mode log :
  served reader writer line_length fast mode log
  = Write (wire_response (attempt reader line_length fast mode))
      :: Drain :: closing reader.
Proof.
  unfold Blackd.served.
  destruct (new_req_wire reader writer line_length fast mode log) as [lines ->].
  reflexivity.
Qed.

(** On every path there is one response, the one of the wire contract. *)
Lemma responses_served reader writer line_length fast mode log :
  responses (served reader writer line_length fast mode log)
  = [wire_response (attempt reader line_length fast mode)].
Proof.
  rewrite served_wire. unfold closing.
  by destruct (incoming reader).
Qed.

(** Once the request is read, the handler lets no exception escape. *)
Lemma new_req_returns reader writer line_length fast mode log req_bytes :
  incoming reader = Ok req_bytes ->
  fst (new_req reader writer line_length fast mode (enter log)) = Ok tt.
Proof.
  intros Hread.
  destruct (new_req_wire reader writer line_length fast mode log) as [lines ->].
  by rewrite Hread.
Qed.

(** C1.  When the request body is read and decoded, the response written
    follows the outcome of formatting: [OK] and a line feed followed by the
    UTF-8 encoding of the formatted text when formatting returns it;
    exactly [OK NO CHANGE] and a line feed when formatting raises
    [NothingChanged]; [ERROR] and a line feed followed by the UTF-8
    encoding of [str(e)] when it raises any other exception [e]. *)
Theorem new_req_response reader writer line_length fast mode log req_bytes req_str :
  incoming reader = Ok req_bytes ->
  decode req_bytes = Ok req_str ->
  let sent := responses (served reader writer line_length fast mode log) in
  (forall formatted,
      format_file_contents req_str line_length fast mode = Ok formatted ->
      sent = [b ("OK" ++ nl) ++ encode formatted])
  /\ (format_file_contents req_str line_length fast mode = Raise NothingChanged ->
      sent = [b ("OK NO CHANGE" ++ nl)])
  /\ (forall e,
      e <> NothingChanged ->
      format_file_contents req_str line_length fast mode = Raise e ->
      sent = [b ("ERROR" ++ nl) ++ encode (str_of_exn e)]).
Proof.
  intros Hread Hdecode sent. subst sent.
  rewrite responses_served. unfold Blackd.attempt. rewrite Hread, Hdecode.
  repeat split.
  - intros formatted ->. reflexivity.
  - intros ->. reflexivity.
  - intros e Hne ->. destruct e; [congruence | reflexivity ..].
Qed.


(** C8.  A request body that is not valid UTF-8 makes decoding raise a
    [UnicodeDecodeError]; the handler catches it, answers [ERROR], a line
    feed and the error message, then drains and closes as on every path
    on which the request was read, and returns normally. *)
Theorem new_req_invalid_utf8 reader writer line_length fast mode log req_bytes :
  incoming reader = Ok req_bytes ->
  ~ valid_utf8 req_bytes ->
  exists start stop reason,
    let e := UnicodeDecodeError req_bytes start stop reason in
    decode req_bytes = Raise e
    /\ fst (new_req reader writer line_length fast mode (enter log)) = Ok tt
    /\ served reader writer line_length fast mode log
       = [Write (b ("ERROR" ++ nl) ++ encode (str_of_exn e)); Drain; Close].
Proof.
  intros Hread Hinvalid.
  destruct (CodecFacts.decode_invalid _ Hinvalid) as [e Hdecode].
  destruct (CodecFacts.decode_raises _ _ Hdecode) as (start & stop & reason & ->).
  exists start, stop, reason. simpl.
  split; [done|]. split; [by eapply new_req_returns|].
  rewrite served_wire. unfold Blackd.attempt, closing.
  rewrite Hread, Hdecode. reflexivity.
Qed.

(** C10.  With the startup parameters and the formatting function fixed,
    two connections whose request bodies are the same bytes get the same
    calls on their writers, hence the same response: the peer and what the
    process has printed before make no difference. *)
Theorem new_req_deterministic line_length fast mode
    reader1 writer1 log1 reader2 writer2 log2 req_bytes :
  incoming reader1 = Ok req_bytes ->
  incoming reader2 = Ok req_bytes ->
  served reader1 writer1 line_length fast mode log1
  = served reader2 writer2 line_length fast mode log2
  /\ responses (served reader1 writer1 line_length fast mode log1)
     = responses (served reader2 writer2 line_length fast mode log2).
Proof.
  intros H1 H2. rewrite !served_wire. unfold Blackd.attempt, closing.
  rewrite H1, H2. split; reflexivity.
Qed.

(** The three first lines, byte by byte. *)
Lemma first_lines :
  b ("OK" ++ nl) = [x4f; x4b; x0a]
  /\ b ("OK NO CHANGE" ++ nl)
     = [x4f; x4b; x20; x4e; x4f; x20; x43; x48; x41; x4e; x47; x45; x0a]
  /\ b ("ERROR" ++ nl) = [x45; x52; x52; x4f; x52; x0a].
Proof. repeat split. Qed.

(** X1.  The first line of the response tells how the attempt ended, and every
    response has one of the three: it starts with [OK] and a line feed
    exactly when a formatted text was produced, it is [OK NO CHANGE] and a
    line feed exactly when [NothingChanged] was raised, and it starts with
    [ERROR] and a line feed exactly when anything else was raised, be it
    by reading, decoding or formatting. *)
Theorem response_tells_outcome reader writer line_length fast mode log :
  exists response,
    responses (served reader writer line_length fast mode log) = [response]
    /\ (b ("OK" ++ nl) `prefix_of` response
        <-> exists formatted, attempt reader line_length fast mode = Ok formatted)
    /\ (response = b ("OK NO CHANGE" ++ nl)
        <-> attempt reader line_length fast mode = Raise NothingChanged)
    /\ (b ("ERROR" ++ nl) `prefix_of` response
        <-> exists e, attempt reader line_length fast mode = Raise e /\ e <> NothingChanged).
Proof.
  rewrite responses_served. eexists. split; [reflexivity|].
  destruct first_lines as (-> & -> & ->).
  destruct (attempt reader line_length fast mode) as [formatted|[]]; simpl;
    (split; [|split]); split;
    first [ done
          | discriminate
          | solve [intros _; eauto]
          | solve [intros _; by eexists]
          | solve [intros _; eexists; split; [reflexivity | discriminate]]
          | solve [intros [k [=]]]
          | solve [intros [s [=]]]
          | solve [intros (e & [=] & _)]
          | solve [intros (e & [= <-] & He); done]
          | solve [intros [=]] ].
Qed.

(** X2.  A request that is the encoding of a text reaches the formatter as that
    text, and what is sent back after the first line decodes to what the
    formatter gave: its result, or the message of its exception. *)
Theorem text_round_trip reader writer line_length fast mode log t :
  incoming reader = Ok (encode t) ->
  let sent := responses (served reader writer line_length fast mode log) in
  (forall formatted,
      format_file_contents t line_length fast mode = Ok formatted ->
      exists payload,
        sent = [b ("OK" ++ nl) ++ payload] /\ decode payload = Ok formatted)
  /\ (forall e,
      e <> NothingChanged ->
      format_file_contents t line_length fast mode = Raise e ->
      exists payload,
        sent = [b ("ERROR" ++ nl) ++ payload] /\ decode payload = Ok (str_of_exn e)).
Proof.
  intros Hread sent. subst sent.
  rewrite responses_served. unfold Blackd.attempt.
  rewrite Hread, CodecFacts.encode_decode.
  split.
  - intros formatted ->. eexists. split; [reflexivity|]. apply CodecFacts.encode_decode.
  - intros e Hne ->. exists (encode (str_of_exn e)).
    split; [by destruct e|]. apply CodecFacts.encode_decode.
Qed.

(** What the handler prints, by the outcome of the attempt. *)
Lemma new_req_stderr reader writer line_length fast mode log :
  stderr (snd (new_req reader writer line_length fast mode (enter log)))
  = log
    ++ match incoming reader with
       | Ok req_bytes =>
           [u "[" ++ peername writer
              ++ u ("] got " ++ dec (length req_bytes) ++ " bytes")]
       | Raise _ => []
       end
    ++ [match attempt reader line_length fast mode with
        | Ok formatted =>
            u "[" ++ peername writer
              ++ u ("] format done, sending " ++ dec (length (encode formatted))
                      ++ " bytes")
        | Raise NothingChanged => u "[" ++ peername writer ++ u "] format done, no changes"
        | Raise e => u "[" ++ peername writer ++ u "] error while formatting: " ++ str_of_exn e
        end].
Proof.
  unfold Blackd.attempt. run_handler.
  destruct (incoming reader) as [req_bytes|e]; simpl.
  - destruct (decode req_bytes) as [req_str|e]; simpl.
    + destruct (format_file_contents req_str line_length fast mode) as [dst|e]; simpl.
      * by rewrite <- !app_assoc.
      * destruct e; simpl; by rewrite <- !app_assoc.
    + destruct e; simpl; by rewrite <- !app_assoc.
  - by destruct e.
Qed.

(** X3.  The log agrees with the response.  What was printed before stays;
    the handler adds the line that reports the size of the request, when
    one was read, and one line on the outcome: after [OK], the size it
    reports is the size of the payload sent; after [OK NO CHANGE], that
    nothing changed; after [ERROR], the message that was sent. *)
Theorem new_req_log reader writer line_length fast mode log :
  let printed := stderr (snd (new_req reader writer line_length fast mode (enter log))) in
  let sent := responses (served reader writer line_length fast mode log) in
  exists report,
    printed
    = log
      ++ match incoming reader with
         | Ok req_bytes =>
             [u "[" ++ peername writer
                ++ u ("] got " ++ dec (length req_bytes) ++ " bytes")]
         | Raise _ => []
         end
      ++ [report]
    /\ (forall payload,
          sent = [b ("OK" ++ nl) ++ payload] ->
          report
          = u "[" ++ peername writer
              ++ u ("] format done, sending " ++ dec (length payload) ++ " bytes"))
    /\ (sent = [b ("OK NO CHANGE" ++ nl)] ->
          report = u "[" ++ peername writer ++ u "] format done, no changes")
    /\ (forall payload,
          sent = [b ("ERROR" ++ nl) ++ payload] ->
          exists message,
            encode message = payload
            /\ report = u "[" ++ peername writer ++ u "] error while formatting: " ++ message).
Proof.
  intros printed sent. subst printed sent.
  rewrite new_req_stderr, responses_served.
  eexists. split; [reflexivity|].
  destruct first_lines as (-> & -> & ->).
  destruct (attempt reader line_length fast mode) as [formatted|[]]; simpl;
    (split; [|split]);
    first [ solve [intros payload [= <-]; eauto]
          | solve [intros payload [=]]
          | solve [intros [=]]
          | done ].
Qed.

(** X4.  For a request that is not valid UTF-8, the message sent back names a
    range of the request that is not empty, and the request is valid UTF-8
    up to where that range starts. *)
Theorem new_req_invalid_utf8_position reader writer line_length fast mode log req_bytes :
  incoming reader = Ok req_bytes ->
  ~ valid_utf8 req_bytes ->
  exists start stop reason,
    responses (served reader writer line_length fast mode log)
    = [b ("ERROR" ++ nl)
       ++ encode (str_of_exn (UnicodeDecodeError req_bytes start stop reason))]
    /\ (start < stop /\ stop <= length req_bytes)%nat
    /\ valid_utf8 (take start req_bytes).
Proof.
  intros Hread Hinvalid.
  destruct (CodecFacts.decode_invalid _ Hinvalid) as [e Hdecode].
  destruct (CodecFacts.decode_raises _ _ Hdecode) as (start & stop & reason & ->).
  exists start, stop, reason.
  destruct (CodecFacts.decode_error_range _ _ _ _ _ Hdecode) as [Hrange Hprefix].
  split; [|done].
  rewrite responses_served. unfold Blackd.attempt. rewrite Hread, Hdecode. reflexivity.
Qed.

End Handler.

End HandlerFacts.

(* ===================================================================== *)
(** ** Properties of the entry point                                      *)
(* ===================================================================== *)

Module MainFacts.

Import Blackd.

Arguments u : simpl never.

Section Main.

Variable format_file_contents : str -> Z -> bool -> FileMode -> result str.
Variable version : str.

Variables (line_length : Z) (fast pyi py36 skip_string_normalization : bool).
Variables (bind_host : str) (bind_port : Z).

#[local] Abbreviation mode := (from_configuration py36 pyi skip_string_normalization).
#[local] Abbreviation req_handler :=
  (fun reader writer => new_req format_file_contents reader writer line_length fast mode).
#[local] Abbreviation main :=
  (Blackd.main format_file_contents version line_length fast pyi py36
     skip_string_normalization bind_host bind_port).

(** A [try] block that does not complete normally keeps the whole
    statement from completing normally, whatever its [finally] clause. *)
Lemma try_finally_no_return {X S A} `{Unwind X} (body : M X S A) fin s :
  (forall a, fst (body s) <> Ok a) ->
  forall a, fst (try_finally body fin s) <> Ok a.
Proof.
  intros Hbody a. unfold try_finally.
  destruct (body s) as [[a'|x] s'].
  - destruct (Hbody a'). reflexivity.
  - destruct (unwinds x); [|discriminate].
    destruct (fin s') as [[?|y] s'']; discriminate.
Qed.

(** Serving connections only: the loop is still running after the last
    one, the server object untouched, and each connection has received
    what the handler gives for it alone. *)
Lemma run_forever_serves conns : forall s,
  exists log,
    run_forever req_handler (map accepted conns) s
    = (Raise Forever,
       mkProcess log (server s) (server_calls s)
         (connections s
            ++ map (fun c => served format_file_contents (fst c) (snd c)
                               line_length fast mode []) conns)).
Proof.
  induction conns as [|[reader writer] conns IH]; intros s; simpl.
  - exists (printed s). rewrite app_nil_r. destruct s; reflexivity.
  - unfold mbind, M_bind, serve, modify. simpl.
    edestruct IH as [log ->]. simpl.
    exists log. rewrite <- app_assoc. simpl.
    change (calls (snd (new_req format_file_contents reader writer line_length
                          fast mode (enter (printed s)))))
      with (served format_file_contents reader writer line_length fast mode (printed s)).
    rewrite !HandlerFacts.served_wire. reflexivity.
Qed.

(** An interrupt ends the loop with [KeyboardInterrupt], after the
    connections that came before it. *)
Lemma run_forever_interrupted conns rest : forall s,
  exists log cs,
    run_forever req_handler (map accepted conns ++ Interrupt :: rest) s
    = (Raise KeyboardInterrupt, mkProcess log (server s) (server_calls s) cs).
Proof.
  induction conns as [|[reader writer] conns IH]; intros s; simpl.
  - exists (printed s), (connections s). by destruct s.
  - unfold mbind, M_bind, serve, modify. simpl.
    edestruct IH as (log & cs & ->). simpl. eauto.
Qed.

(** The loop is left only by an exception. *)
Lemma run_forever_no_return events : forall s,
  fst (run_forever req_handler events s) <> Ok tt.
Proof.
  induction events as [|[reader writer|writer|] events IH]; intros s; simpl;
    [discriminate | | | discriminate].
  - unfold mbind, M_bind, serve, modify. simpl. apply IH.
  - unfold mbind, M_bind, suspend, modify. simpl. apply IH.
Qed.

(** C7.  The module has no [_stop_signal]: looking it up from outside
    raises [AttributeError].  And [main] has no way out of the loop but an
    exception: it never returns, and as long as connections are all that
    arrives it is still serving, with no call made on the server. *)
Theorem main_has_no_stop_signal :
  module_getattr "_stop_signal"
  = Raise (AttributeError "module 'blackd' has no attribute '_stop_signal'")
  /\ (forall binding events, fst (main binding events boot) <> Ok tt)
  /\ (forall conns,
        fst (main (Ok tt) (map accepted conns) boot) = Raise Forever
        /\ server_calls (snd (main (Ok tt) (map accepted conns) boot)) = []).
Proof.
  split; [reflexivity|]. split.
  - intros binding events. unfold Blackd.main.
    apply try_finally_no_return. unfold start_server.
    destruct binding as [[]|e]; unfold mbind, M_bind, mret, M_ret, raise; simpl.
    + intros a. destruct a. apply run_forever_no_return.
    + discriminate.
  - intros conns. unfold Blackd.main, try_finally, start_server.
    unfold mbind, M_bind, mret, M_ret; simpl.
    match goal with
    | |- context [run_forever ?h _ ?s] =>
        destruct (run_forever_serves conns s) as [log ->]
    end.
    simpl. split; reflexivity.
Qed.

(** C9.  When binding the listening socket raises, the [finally] clause
    evaluates [server] while it is unbound: [main] ends with
    [UnboundLocalError] in place of the bind error, and neither
    [server.close()] nor [server.wait_closed()] is called. *)
Theorem main_cleanup_unbound_server e events :
  fst (main (Raise e) events boot) = Raise (Exc (UnboundLocalError "server"))
  /\ server_calls (snd (main (Raise e) events boot)) = []
  /\ server (snd (main (Raise e) events boot)) = None.
Proof. split; [reflexivity | split; reflexivity]. Qed.

(** By contrast, when the bind succeeds and an interrupt stops the loop,
    the same [finally] clause closes the server and waits for it, and the
    interrupt goes on. *)
Lemma main_interrupted conns rest :
  fst (main (Ok tt) (map accepted conns ++ Interrupt :: rest) boot)
  = Raise KeyboardInterrupt
  /\ server_calls (snd (main (Ok tt) (map accepted conns ++ Interrupt :: rest) boot))
     = [ServerClose; ServerWaitClosed].
Proof.
  unfold Blackd.main, try_finally, start_server.
  unfold mbind, M_bind, mret, M_ret; simpl.
  match goal with
  | |- context [run_forever ?h _ ?s] =>
      destruct (run_forever_interrupted conns rest s) as (log & cs & ->)
  end.
  simpl. split; reflexivity.
Qed.

(** The line [main] prints once the server is bound, and the calls on the
    writers of a sequence of connections, each answered on its own. *)
#[local] Abbreviation banner :=
  (u "blackd version " ++ version ++ u " listening on " ++ bind_host
     ++ u (" port " ++ decZ bind_port)).
#[local] Abbreviation answers :=
  (map (fun c => Blackd.served format_file_contents (fst c) (snd c)
                   line_length fast mode [])).

(** The loop over connections followed by what else the events hold: the
    log only grows, and each connection is answered as by the handler
    alone, in the order of arrival. *)
Lemma run_forever_prefix conns rest : forall s,
  exists more s',
    run_forever req_handler (map accepted conns ++ rest) s
    = run_forever req_handler rest s'
    /\ s' = mkProcess (printed s ++ more) (server s) (server_calls s)
              (connections s ++ answers conns).
Proof.
  induction conns as [|[reader writer] conns IH]; intros s; simpl.
  - exists [], s. split; [done|]. rewrite !app_nil_r. by destruct s.
  - unfold mbind, M_bind, serve, modify. simpl.
    destruct (HandlerFacts.new_req_wire format_file_contents reader writer
                line_length fast mode (printed s)) as [lines Hrun].
    edestruct IH as (more & s' & -> & ->). simpl.
    rewrite Hrun. simpl.
    eexists (lines ++ more), _. split; [reflexivity|].
    rewrite <- !app_assoc. simpl. do 2 f_equal.
    change (calls (snd (Blackd.new_req format_file_contents reader writer line_length
                          fast mode (enter (printed s)))))
      with (Blackd.served format_file_contents reader writer line_length fast mode
              (printed s)).
    rewrite !HandlerFacts.served_wire. reflexivity.
Qed.

(** X5.  With the socket bound, the banner is the first line printed, and as
    long as connections are all that arrives, each is answered as the
    handler answers it alone, in the order of arrival; the server is kept
    and no call is made on it. *)
Theorem main_serves_in_order conns :
  exists more,
    main (Ok tt) (map accepted conns) boot
    = (Raise Forever,
       mkProcess (banner :: more) (Some {| host := bind_host; port := bind_port |}) []
         (answers conns)).
Proof.
  unfold Blackd.main, try_finally, start_server.
  unfold mbind, M_bind, mret, M_ret; simpl.
  match goal with
  | |- context [run_forever ?h _ ?s] =>
      destruct (run_forever_prefix conns [] s) as (more & s' & Hrun & ->)
  end.
  rewrite app_nil_r in Hrun. rewrite Hrun. simpl. by exists more.
Qed.

(** Up to its first [await], a handler prints nothing and makes no call
    on its writer: whether the loop has started it yet cannot be told. *)
Lemma until_read_silent writer log :
  until_read writer (enter log)
  = (Ok tt, mkFrame log [] (Some (peername writer)) None).
Proof. reflexivity. Qed.

(** For each connection among the events, the calls its writer has
    received when the loop is left: those of the handler alone when the
    request arrived, none when the handler still waits for it. *)
#[local] Abbreviation outcomes :=
  (flat_map (fun ev =>
     match ev with
     | Connection reader writer =>
         [Blackd.served format_file_contents reader writer line_length fast mode []]
     | Pending _ => [[]]
     | Interrupt => []
     end)).



End Main.

End MainFacts.

(* ===================================================================== *)
(** ** Properties of the cache and the batch driver                       *)
(* ===================================================================== *)

Module BatchFacts.

Import Batch.

Section Cache.

Variable get_cache_info : path -> CacheInfo.

(** Merging keeps the old records of other files and sets a fresh record
    for each source. *)
Lemma lookup_merged (cache : gmap path CacheInfo) (sources : list path) (p : path) :
  merged get_cache_info cache sources !! p
  = if decide (p ∈ sources) then Some (get_cache_info p) else cache !! p.
Proof.
  induction sources as [|src sources IH].
  - rewrite decide_False; [done | apply not_elem_of_nil].
  - change (merged get_cache_info cache (src :: sources))
      with (<[src := get_cache_info src]> (merged get_cache_info cache sources)).
    destruct (decide (src = p)) as [->|Hne].
    + rewrite lookup_insert_eq, decide_True; [done | apply list_elem_of_here].
    + rewrite lookup_insert_ne by done. rewrite IH.
      destruct (decide (p ∈ sources)) as [Hin|Hout].
      * rewrite decide_True; [done | by apply list_elem_of_further].
      * rewrite decide_False; [done|].
        intros [->|Hin]%elem_of_cons; done.
Qed.

Lemma read_cache_write_cache cache sources line_length mode (d : cache_dir) :
  read_cache line_length mode
    (write_cache get_cache_info cache sources line_length mode true d)
  = merged get_cache_info cache sources.
Proof. unfold read_cache, write_cache. by rewrite lookup_insert_eq. Qed.

(** Stores of other fingerprints are out of a write's reach. *)
Lemma read_cache_write_cache_other cache sources line_length mode writable
    line_length' mode' (d : cache_dir) :
  mkFingerprint line_length mode <> mkFingerprint line_length' mode' ->
  read_cache line_length' mode'
    (write_cache get_cache_info cache sources line_length mode writable d)
  = read_cache line_length' mode' d.
Proof.
  intros Hne. unfold read_cache, write_cache.
  destruct writable; [|done]. by rewrite lookup_insert_ne.
Qed.

(** A write changes what is read only under its own fingerprint, and there
    only the records of the files it is given. *)
Lemma write_cache_changes sources line_length mode writable (d : cache_dir)
    line_length' mode' (p : path) :
  read_cache line_length' mode'
    (write_cache get_cache_info (read_cache line_length mode d) sources
       line_length mode writable d) !! p
    <> read_cache line_length' mode' d !! p ->
  p ∈ sources
  /\ mkFingerprint line_length' mode' = mkFingerprint line_length mode
  /\ read_cache line_length' mode'
       (write_cache get_cache_info (read_cache line_length mode d) sources
          line_length mode writable d) !! p
     = Some (get_cache_info p).
Proof.
  destruct (decide (mkFingerprint line_length mode = mkFingerprint line_length' mode'))
    as [Heq|Hne].
  - injection Heq as <- <-.
    destruct writable; [|done].
    rewrite read_cache_write_cache, lookup_merged.
    destruct (decide (p ∈ sources)) as [Hin|Hout]; done.
  - rewrite read_cache_write_cache_other by done. done.
Qed.

(** C5.  A candidate is classified as already done exactly when the cache
    read under the current fingerprint has a record for it that equals its
    current (modification time, size); any other candidate, with a stale
    record or none, is to be processed.  A write under one fingerprint
    leaves what is read under any other fingerprint as it was. *)
Theorem filter_cached_exact line_length mode (d : cache_dir) (sources : gset path)
    (src : path) line_length' mode' written writable :
  src ∈ sources ->
  mkFingerprint line_length mode <> mkFingerprint line_length' mode' ->
  let cache := read_cache line_length mode d in
  let todo := fst (filter_cached get_cache_info cache sources) in
  let done := snd (filter_cached get_cache_info cache sources) in
  (src ∈ done <-> cache !! src = Some (get_cache_info src))
  /\ (src ∈ todo <-> cache !! src <> Some (get_cache_info src))
  /\ (src ∈ todo <-> src ∉ done)
  /\ read_cache line_length' mode'
       (write_cache get_cache_info cache written line_length mode writable d)
     = read_cache line_length' mode' d.
Proof.
  intros Hsrc Hfp cache todo done. subst todo done. unfold filter_cached, fresh. simpl.
  rewrite !elem_of_filter.
  split; [tauto|]. split; [tauto|]. split.
  - split.
    + intros [Hstale _] [Hfresh _]. contradiction.
    + intros Hnot. split; [|done]. intros Hfresh. apply Hnot. done.
  - by apply read_cache_write_cache_other.
Qed.

End Cache.

Section Run.

Variable format_file_in_place : path -> result bool.
Variable format_stdin_to_stdout : result bool.
Variable stat_before stat_after : path -> CacheInfo.
Variable writable : bool.

#[local] Abbreviation succeeded := (Batch.succeeded format_file_in_place).
#[local] Abbreviation schedule_formatting :=
  (Batch.schedule_formatting format_file_in_place stat_before stat_after writable).
#[local] Abbreviation run :=
  (Batch.run format_file_in_place format_stdin_to_stdout stat_before stat_after writable).

(** The files whose records a run over [sources] writes. *)
Lemma schedule_formatting_cache sources line_length write_back mode report (d : cache_dir) :
  snd (schedule_formatting sources line_length write_back mode report d)
  = match write_back with
    | WriteBack_YES =>
        write_cache stat_after (read_cache line_length mode d)
          (List.filter succeeded
             (elements (fst (filter_cached stat_before (read_cache line_length mode d)
                               sources))))
          line_length mode writable d
    | _ => d
    end.
Proof. unfold Batch.schedule_formatting. simpl. by destruct write_back. Qed.

(** A run that does not write files back leaves the cache alone. *)
Lemma run_read_only src line_length write_back mode report (d : cache_dir) :
  write_back <> WriteBack_YES ->
  snd (run src line_length write_back mode report d) = d.
Proof.
  intros Hwb. destruct src as [srcs|]; [|done].
  unfold Batch.run. rewrite schedule_formatting_cache.
  by destruct write_back.
Qed.

(** Every record that differs after a run was written by it, under the
    fingerprint of the run, for a file of the run that the cache did not
    mark as done and whose format attempt returned, and the run wrote
    files back. *)
Lemma run_changes_only_formatted src line_length write_back mode report (d : cache_dir)
    line_length' mode' (p : path) :
  read_cache line_length' mode' (snd (run src line_length write_back mode report d)) !! p
    <> read_cache line_length' mode' d !! p ->
  write_back = WriteBack_YES
  /\ (exists srcs,
        src = Paths srcs /\ p ∈ srcs
        /\ read_cache line_length mode d !! p <> Some (stat_before p))
  /\ (exists changed, format_file_in_place p = Ok changed)
  /\ mkFingerprint line_length' mode' = mkFingerprint line_length mode
  /\ read_cache line_length' mode' (snd (run src line_length write_back mode report d)) !! p
     = Some (stat_after p).
Proof.
  intros Hp.
  assert (write_back = WriteBack_YES) as ->.
  { destruct write_back; try done; by rewrite run_read_only in Hp. }
  destruct src as [srcs|]; [|done].
  unfold Batch.run in *. rewrite schedule_formatting_cache in *.
  apply write_cache_changes in Hp as (Hin & Hfp & Hnew).
  apply list_elem_of_In, filter_In in Hin as [Hin Hok].
  apply list_elem_of_In, elem_of_elements, elem_of_filter in Hin as [Hstale Hin].
  unfold Batch.succeeded in Hok.
  destruct (format_file_in_place p) as [changed|e] eqn:Hformat; [|done].
  repeat split; eauto.
Qed.

(** C4, as amended.  A run writes a cache record only for a file it
    formatted (or found formatted) without error.  Every record that
    differs after the run is the current snapshot of a file of the run that
    the cache had not marked as done and whose format attempt returned, in
    a run that writes files back, under the fingerprint of that run.  The
    record of a file whose format attempt failed is after the run what it
    was before, none if there was none.  A run in diff mode, a run in check
    mode and a run on the standard input leave the whole cache as it
    was. *)
Theorem cache_written_only_after_success src line_length write_back mode report
    (d : cache_dir) :
  let d' := snd (run src line_length write_back mode report d) in
  (forall line_length' mode' p,
      read_cache line_length' mode' d' !! p <> read_cache line_length' mode' d !! p ->
      write_back = WriteBack_YES
      /\ (exists srcs,
            src = Paths srcs /\ p ∈ srcs
            /\ read_cache line_length mode d !! p <> Some (stat_before p))
      /\ (exists changed, format_file_in_place p = Ok changed)
      /\ mkFingerprint line_length' mode' = mkFingerprint line_length mode
      /\ read_cache line_length' mode' d' !! p = Some (stat_after p))
  /\ (forall line_length' mode' p e,
      format_file_in_place p = Raise e ->
      read_cache line_length' mode' d' !! p = read_cache line_length' mode' d !! p)
  /\ (write_back = WriteBack_DIFF -> d' = d)
  /\ (write_back = WriteBack_NO -> d' = d)
  /\ (src = Stdin -> d' = d).
Proof.
  intros d'. subst d'. split; [|split; [|split; [|split]]].
  - intros line_length' mode' p Hp.
    by apply run_changes_only_formatted in Hp.
  - intros line_length' mode' p e Hfail.
    destruct (decide (read_cache line_length' mode'
                        (snd (run src line_length write_back mode report d)) !! p
                      = read_cache line_length' mode' d !! p)) as [Heq|Hne]; [done|].
    apply run_changes_only_formatted in Hne as (_ & _ & [changed Hok] & _).
    congruence.
  - intros ->. by apply run_read_only.
  - intros ->. by apply run_read_only.
  - intros ->. done.
Qed.

(** *** Exit status *)

Variable re_compile_ok : string -> bool.

#[local] Abbreviation attempts :=
  (Batch.attempts format_file_in_place format_stdin_to_stdout stat_before).
#[local] Abbreviation main :=
  (Batch.main format_file_in_place format_stdin_to_stdout stat_before stat_after
     writable re_compile_ok).

(** Merging outcomes into the report keeps its mode and counts each
    attempt once: the failures among those that raised, the changes among
    those that returned true. *)
Lemma foldl_outcome_counts (f : path -> result bool) l : forall r,
  let r' := foldl (fun r src => outcome r src (f src)) r l in
  check r' = check r
  /\ failure_count r'
     = (failure_count r + length (List.filter failed_attempt (map f l)))%nat
  /\ change_count r'
     = (change_count r + length (List.filter changed_attempt (map f l)))%nat.
Proof.
  induction l as [|src l IH]; intros r; simpl; [repeat split; lia|].
  destruct (IH (outcome r src (f src))) as (H1 & H2 & H3).
  simpl in H1, H2, H3. rewrite H1, H2, H3.
  destruct (f src) as [[]|e]; simpl; repeat split; lia.
Qed.

(** Files skipped as already done change neither the mode nor the two
    counters the exit status looks at. *)
Lemma foldl_cached_counts l : forall r,
  let r' := foldl (fun r src => done r src Changed_CACHED) r l in
  check r' = check r
  /\ failure_count r' = failure_count r
  /\ change_count r' = change_count r.
Proof.
  induction l as [|src l IH]; intros r; simpl; [done|].
  destruct (IH (done r src Changed_CACHED)) as (H1 & H2 & H3).
  simpl in H1, H2, H3. by rewrite H1, H2, H3.
Qed.

(** The report of a run counts the attempts of the run. *)
Lemma run_report src line_length write_back mode check (d : cache_dir) :
  let r := fst (run src line_length write_back mode (new_report check) d) in
  Batch.check r = check
  /\ failure_count r
     = length (List.filter failed_attempt (attempts src line_length mode d))
  /\ change_count r
     = length (List.filter changed_attempt (attempts src line_length mode d)).
Proof.
  destruct src as [srcs|]; simpl.
  - unfold Batch.schedule_formatting. simpl.
    assert (forall (r : Report) (d1 d2 : cache_dir),
      fst match write_back with
          | WriteBack_YES => (r, d1)
          | _ => (r, d2)
          end = r) as -> by (intros; by destruct write_back).
    match goal with
    | |- context [foldl _ (foldl _ ?r0 ?cached) ?todo] =>
        destruct (foldl_outcome_counts format_file_in_place todo
                    (foldl (fun r src => done r src Changed_CACHED) r0 cached))
          as (H1 & H2 & H3);
        destruct (foldl_cached_counts cached r0) as (H4 & H5 & H6)
    end.
    simpl in H1, H2, H3, H4, H5, H6.
    rewrite H1, H2, H3, H4, H5, H6. done.
  - by destruct format_stdin_to_stdout as [[]|e].
Qed.

(** Counting and finding. *)
Lemma filter_nonempty {A} (f : A -> bool) (l : list A) :
  (0 < length (List.filter f l))%nat <-> exists x, x ∈ l /\ f x = true.
Proof.
  induction l as [|y l IH]; simpl.
  - split; [lia|]. intros (x & Hx & _). by apply elem_of_nil in Hx.
  - destruct (f y) eqn:Hy; simpl.
    + split; [|lia]. intros _. exists y. split; [left|done].
    + rewrite IH. split.
      * intros (x & Hx & Hfx). exists x. split; [by right|done].
      * intros (x & [->|Hx]%elem_of_cons & Hfx); [congruence|eauto].
Qed.

(** C6, as amended.  The exit status is 2 when the include or the exclude
    pattern is malformed.  Otherwise it is decided by the format attempts
    of the run, one for each file that the cache does not mark as already
    done (or the one on the standard input): 123 exactly when at least one
    attempt failed; 1 exactly when none failed, check mode is set and at
    least one file would be reformatted; 0 exactly when none failed and
    either check mode is off or no file would be reformatted. *)
Theorem exit_status line_length check diff mode include exclude src (d : cache_dir) :
  let status := fst (main line_length check diff mode include exclude src d) in
  let tried := attempts src line_length mode d in
  let some_failed := exists e, Raise e ∈ tried in
  let some_changed := Ok true ∈ tried in
  (re_compile_ok include = false \/ re_compile_ok exclude = false -> status = 2%Z)
  /\ (re_compile_ok include = true -> re_compile_ok exclude = true ->
      (status = 123%Z <-> some_failed)
      /\ (status = 1%Z <-> ~ some_failed /\ check = true /\ some_changed)
      /\ (status = 0%Z <-> ~ some_failed /\ (check = false \/ ~ some_changed))).
Proof.
  intros status tried some_failed some_changed.
  subst status. unfold Batch.main. split.
  - intros [-> | Hex]; simpl; [done|].
    rewrite Hex. by destruct (re_compile_ok include).
  - intros -> ->. simpl.
    set (write_back :=
           if diff then WriteBack_DIFF else if check then WriteBack_NO else WriteBack_YES).
    destruct (run_report src line_length write_back mode check d)
      as (Hcheck & Hfailures & Hchanges).
    fold tried in Hfailures, Hchanges.
    destruct (run src line_length write_back mode (new_report check) d) as [r d'].
    simpl in *. unfold return_code. rewrite Hcheck, Hfailures, Hchanges.
    assert ((0 < length (List.filter failed_attempt tried))%nat <-> some_failed)
      as Hfailed.
    { rewrite filter_nonempty. subst some_failed. split.
      - intros ([changed|e] & Hx & Hfx); [done|eauto].
      - intros [e He]. by exists (Raise e). }
    assert ((0 < length (List.filter changed_attempt tried))%nat <-> some_changed)
      as Hchanged.
    { rewrite filter_nonempty. subst some_changed. split.
      - intros ([[]|e] & Hx & Hfx); done.
      - intros Hx. by exists (Ok true). }
    repeat case_bool_decide; destruct check; simpl;
      intuition (try discriminate; try congruence; auto).
Qed.

End Run.

End BatchFacts.

(* ===================================================================== *)
(** ** Properties of the helpers of the test-suite                       *)
(* ===================================================================== *)

Module TestSupportFacts.

Import TestSupport.

(** Texts are the same exactly when they are equal. *)
Lemma same_eq x y : same x y = true <-> x = y.
Proof.
  unfold same. rewrite bool_decide_eq_true. split; [|by intros ->].
  revert y. induction x as [|c x IH]; intros [|d y]; simpl; try done.
  intros [= Hc Hxy]. f_equal; [by apply CodecFacts.char_eq | by apply IH].
Qed.

(** *** [dump_to_stderr] *)

Lemma LF_char : exists c, LF = [c] /\ code c = 10%N.
Proof. eexists. split; reflexivity. Qed.

Lemma cut_at_newline x y r1 r2 :
  newline_free x -> newline_free y ->
  x ++ LF ++ r1 = y ++ LF ++ r2 -> x = y /\ r1 = r2.
Proof.
  destruct LF_char as (lf & -> & Hlf).
  intros Hx. revert y. induction Hx as [|c x Hc Hx IH]; intros y Hy; simpl.
  - destruct Hy as [|d y Hd Hy]; simpl; [by intros [=]|].
    intros [= <- _]. by destruct Hd.
  - destruct Hy as [|d y Hd Hy]; simpl.
    + intros [= -> _]. by destruct Hc.
    + intros [= -> Heq]. apply IH in Heq as [-> ->]; done.
Qed.

Lemma join_cons sep x rest :
  join sep (x :: rest) ++ sep
  = x ++ sep ++ match rest with [] => [] | _ :: _ => join sep rest ++ sep end.
Proof. destruct rest; simpl; [by rewrite app_nil_r | by rewrite <- !app_assoc]. Qed.

Lemma join_lines_injective l1 : forall l2,
  Forall newline_free l1 -> Forall newline_free l2 ->
  l1 <> [] -> l2 <> [] ->
  join LF l1 ++ LF = join LF l2 ++ LF -> l1 = l2.
Proof.
  assert (forall s, s ++ LF <> []) as Hne.
  { intros s. destruct LF_char as (lf & -> & _). by destruct s. }
  induction l1 as [|x l1 IH]; intros [|y l2] H1 H2 Hn1 Hn2; try done.
  rewrite !join_cons.
  inversion H1 as [|? ? Hx H1']; inversion H2 as [|? ? Hy H2']; subst.
  intros [-> Hrest]%cut_at_newline; [|done..].
  f_equal. destruct l1 as [|x1 l1], l2 as [|y1 l2]; try done.
  - by destruct (Hne (join LF (y1 :: l2))).
  - by destruct (Hne (join LF (x1 :: l1))).
  - by apply IH.
Qed.

Lemma dump_to_stderr_normal l1 l2 :
  Forall newline_free l1 -> Forall newline_free l2 ->
  dump_to_stderr l1 = dump_to_stderr l2 ->
  match l1 with [] => [[]] | _ :: _ => l1 end
  = match l2 with [] => [[]] | _ :: _ => l2 end.
Proof.
  intros H1 H2. unfold dump_to_stderr.
  intros Heq%app_inv_head.
  assert (forall l, Forall newline_free l ->
            join LF l ++ LF
            = join LF (match l with [] => [[]] | _ :: _ => l end) ++ LF
            /\ Forall newline_free (match l with [] => [[]] | _ :: _ => l end)
            /\ match l with [] => [[]] | _ :: _ => l end <> []) as Hnorm.
  { intros [|x l] Hl; [|done]. repeat split; [|done]. by repeat constructor. }
  destruct (Hnorm l1 H1) as (E1 & F1 & N1), (Hnorm l2 H2) as (E2 & F2 & N2).
  rewrite E1, E2 in Heq. by apply join_lines_injective.
Qed.

(** X7.  [dump_to_stderr] keeps its arguments apart: when no argument holds a
    line feed, the arguments can be told from the text, except that no
    argument at all and one empty argument give the same text. *)
Theorem dump_to_stderr_lines l1 l2 :
  Forall newline_free l1 -> Forall newline_free l2 ->
  dump_to_stderr l1 = dump_to_stderr l2 ->
  l1 = l2 \/ (l1 = [] /\ l2 = [[]]) \/ (l1 = [[]] /\ l2 = []).
Proof.
  intros H1 H2 Heq. pose proof (dump_to_stderr_normal l1 l2 H1 H2 Heq) as Hn.
  destruct l1 as [|x1 l1], l2 as [|x2 l2]; simpl in Hn.
  - by left.
  - right; left. by rewrite Hn.
  - right; right. by rewrite <- Hn.
  - by left.
Qed.

(** *** [read_data] *)

(** X8.  A test name and the file name it stands for name the same file, and
    that file name has one of the four endings. *)
Theorem read_data_file_name readlines name data :
  read_data readlines (file_name name) data = read_data readlines name data
  /\ existsb (endswith (file_name name)) [u ".py"; u ".pyi"; u ".out"; u ".diff"] = true.
Proof.
  assert (existsb (endswith (file_name name)) [u ".py"; u ".pyi"; u ".out"; u ".diff"]
          = true) as Hends.
  { unfold file_name.
    destruct (existsb (endswith name) _) eqn:E; [done|].
    simpl. apply orb_true_iff. left. unfold endswith.
    apply bool_decide_eq_true. rewrite map_app. by apply suffix_app_r. }
  split; [|done].
  unfold read_data. f_equal. f_equal.
  unfold file_name at 1. by rewrite Hends.
Qed.

Lemma collect_marker st line :
  is_marker line = true ->
  collect st line = mkCollected (_input st) (_output st) to_output.
Proof. unfold collect, is_marker. by intros ->. Qed.

Lemma collect_text st line :
  is_marker line = false ->
  collect st line
  = match result_alias st with
    | to_input => mkCollected (_input st ++ [cleaned line]) (_output st) to_input
    | to_output => mkCollected (_input st) (_output st ++ [cleaned line]) to_output
    end.
Proof. unfold collect, is_marker. intros ->. by destruct (result_alias st). Qed.

(** Before the first marker, lines go to the input. *)
Lemma foldl_collect_input pre : forall st,
  result_alias st = to_input ->
  Forall (fun line => is_marker line = false) pre ->
  foldl collect st pre = mkCollected (_input st ++ map cleaned pre) (_output st) to_input.
Proof.
  induction pre as [|line pre IH]; intros st Hst Hpre; simpl.
  - rewrite app_nil_r. destruct st; simpl in *; by subst.
  - inversion Hpre as [|? ? Hline Hpre']; subst.
    rewrite collect_text, Hst by done.
    rewrite IH by done. simpl. by rewrite <- app_assoc.
Qed.

(** After it, the lines that are no marker go to the output. *)
Lemma foldl_collect_output lines : forall st,
  result_alias st = to_output ->
  foldl collect st lines
  = mkCollected (_input st) (_output st ++ map cleaned (List.filter is_text_line lines))
      to_output.
Proof.
  induction lines as [|line lines IH]; intros st Hst; simpl.
  - rewrite app_nil_r. destruct st; simpl in *; by subst.
  - unfold is_text_line at 1. destruct (is_marker line) eqn:E; simpl.
    + rewrite collect_marker by done. by rewrite IH.
    + rewrite collect_text, Hst by done.
      rewrite IH by done. simpl. by rewrite <- app_assoc.
Qed.

Lemma read_data_lines_no_output pre post :
  Forall (fun line => is_marker line = false) pre ->
  Forall (fun line => is_marker line = true) post ->
  snd (read_data_lines (pre ++ post)) = fst (read_data_lines (pre ++ post)).
Proof.
  intros Hpre Hpost. unfold read_data_lines.
  rewrite foldl_app, (foldl_collect_input pre) by done. simpl.
  destruct post as [|m post].
  - simpl. by destruct (map cleaned pre).
  - inversion Hpost as [|? ? Hm Hpost']; subst. simpl.
    rewrite collect_marker by done. rewrite foldl_collect_output by done. simpl.
    assert (List.filter is_text_line post = []) as ->.
    { clear -Hpost'. induction Hpost' as [|line post Hline _ IH]; simpl; [done|].
      unfold is_text_line at 1. by rewrite Hline. }
    simpl. by destruct (map cleaned pre).
Qed.

(** X9.  A file in which nothing follows the marker, or which has no marker,
    is its own expected output. *)
Theorem read_data_no_output readlines name data pre post :
  readlines data (file_name name) = Ok (pre ++ post) ->
  Forall (fun line => is_marker line = false) pre ->
  Forall (fun line => is_marker line = true) post ->
  exists text, read_data readlines name data = Ok (text, text).
Proof.
  intros Hfile Hpre Hpost. unfold read_data. rewrite Hfile.
  exists (fst (read_data_lines (pre ++ post))). f_equal.
  rewrite <- (read_data_lines_no_output pre post) at 2 by done.
  by destruct (read_data_lines (pre ++ post)).
Qed.

(** X10.  A marker splits the file.  The input is made of the lines before the
    first marker, the output of the lines after it that are no marker
    themselves, when there is one: each line with the remark on empty
    lines taken out, the lines put together, white space taken off both
    ends, and a line feed put at the end. *)
Theorem read_data_split readlines name data pre m post :
  readlines data (file_name name) = Ok (pre ++ m :: post) ->
  Forall (fun line => is_marker line = false) pre ->
  is_marker m = true ->
  Exists (fun line => is_marker line = false) post ->
  read_data readlines name data
  = Ok (strip (join [] (map cleaned pre)) ++ LF,
        strip (join [] (map cleaned (List.filter is_text_line post))) ++ LF).
Proof.
  intros Hfile Hpre Hm Hpost. unfold read_data. rewrite Hfile. f_equal.
  unfold read_data_lines.
  rewrite foldl_app, (foldl_collect_input pre) by done. simpl.
  rewrite collect_marker by done. rewrite foldl_collect_output by done. simpl.
  assert (exists x rest, map cleaned (List.filter is_text_line post) = x :: rest)
    as (x & rest & ->).
  { clear -Hpost. induction Hpost as [line post Hline|line post _ IH]; simpl.
    - unfold is_text_line at 1. rewrite Hline. simpl. eauto.
    - destruct (is_text_line line); simpl; eauto. }
  by destruct (map cleaned pre).
Qed.

Lemma lstrip_head s c : head (lstrip s) = Some c -> isspace c = false.
Proof.
  induction s as [|d s IH]; simpl; [done|].
  destruct (isspace d) eqn:E; [done|]. by intros [= <-].
Qed.

Lemma rstrip_last s c : list.last (rstrip s) = Some c -> isspace c = false.
Proof.
  revert c. induction s as [|d s IH]; intros c; simpl; [done|].
  destruct (rstrip s) as [|k kept] eqn:E.
  - destruct (isspace d) eqn:Ed; [done|]. by intros [= <-].
  - intros Hlast. apply IH. by destruct kept.
Qed.

Lemma lstrip_last s c : list.last (lstrip s) = Some c -> list.last s = Some c.
Proof.
  induction s as [|d s IH]; simpl; [done|].
  destruct (isspace d); [|done].
  intros Hc%IH. destruct s; [done|]. done.
Qed.

(** X11.  Both texts [read_data] returns are a body without white space at
    either end, followed by one line feed. *)
Theorem read_data_shape readlines name data input output :
  read_data readlines name data = Ok (input, output) ->
  stripped input /\ stripped output.
Proof.
  assert (forall s c, head (strip s) = Some c -> isspace c = false) as Hhead
    by (intros s c; apply lstrip_head).
  assert (forall s c, list.last (strip s) = Some c -> isspace c = false) as Hlast
    by (intros s c Hc%lstrip_last; by apply rstrip_last in Hc).
  unfold read_data.
  destruct (readlines data (file_name name)) as [lines|e]; [|done].
  intros [= <- <-].
  split; eexists; (split; [reflexivity|]); split; eauto.
Qed.

(** *** [event_loop] and [async_test] *)

(** [event_loop] in one step: the block runs from [entered], and the
    [finally] clause acts on the state the block leaves. *)
Lemma event_loop_run {A} close (body : L A) s :
  event_loop close body s
  = (fst (body (entered s)),
     mkLoops (current s) (made (snd (body (entered s))))
       (if close then made s :: closed_loops (snd (body (entered s)))
        else closed_loops (snd (body (entered s))))).
Proof.
  unfold event_loop, entered, mbind, M_bind, get_event_loop, new_event_loop,
    set_event_loop, try_finally, modify. simpl.
  destruct (body _) as [[a|e] s']; destruct close; simpl; done.
Qed.

(** X12.  However the block ends, normally or with an exception, it ends
    the same way with the context manager around it, the loop that was
    current before is current again, and the loop made for the block is
    closed exactly when [close] asks for it. *)
Theorem event_loop_restores {A} close (body : L A) s :
  let after_body := snd (body (entered s)) in
  let after := snd (event_loop close body s) in
  fst (event_loop close body s) = fst (body (entered s))
  /\ current after = current s
  /\ made after = made after_body
  /\ closed_loops after
     = if close then made s :: closed_loops after_body else closed_loops after_body.
Proof. rewrite event_loop_run. simpl. done. Qed.

(** X13.  When no loop that is still to be made counts as closed, the
    coroutine of an [async_test] runs, on a fresh loop, and the test ends
    as the coroutine does; afterwards the earlier loop is current and the
    fresh one is closed. *)
Theorem async_test_runs {A} (f : L A) s :
  Forall (fun loop => loop < made s)%nat (closed_loops s) ->
  let after := snd (async_test f s) in
  fst (async_test f s)
  = match fst (f (entered s)) with Ok _ => Ok tt | Raise e => Raise e end
  /\ current after = current s
  /\ made s ∈ closed_loops after.
Proof.
  intros Hclosed. unfold async_test. rewrite event_loop_run. simpl.
  split; [|split; [done|by left]].
  unfold mbind, M_bind, get_event_loop, run_until_complete, entered. simpl.
  rewrite bool_decide_eq_false_2.
  - by destruct (f _) as [[a|e] s'].
  - intros Hin. eapply List.Forall_forall in Hclosed.
    2:{ apply list_elem_of_In, Hin. }
    simpl in Hclosed. lia.
Qed.

(** *** [assertFormatEqual] *)

Section AssertFormatEqual.

Variable show_tree : str -> C unit.
Variable assertion_message : str -> str -> str.
Variable SKIP_AST_PRINT : option str.

#[local] Abbreviation assertFormatEqual :=
  (TestSupport.assertFormatEqual show_tree assertion_message SKIP_AST_PRINT).

(** X14.  Equal texts pass and print nothing.  Different texts fail with
    the message of [assertEqual], whatever printing the trees does: an
    exception of the printing is caught and reported with [black.err] and
    never takes the place of the failure.  Unless [SKIP_AST_PRINT] is
    set, the failure comes after both trees have been printed, the
    expected one under [Expected tree:] and then the actual one under
    [Actual tree:], each with the report of its own exception. *)
Theorem assertFormatEqual_verdict expected actual s :
  (expected = actual -> assertFormatEqual expected actual s = (Ok tt, s))
  /\ (expected <> actual ->
      assertFormatEqual expected actual s
      = (Raise (Error (assertion_message expected actual)),
         if truthy SKIP_AST_PRINT then s
         else tree_printed show_tree (u "Actual tree:") actual
                (tree_printed show_tree (u "Expected tree:") expected s))).
Proof.
  unfold TestSupport.assertFormatEqual, assertEqual, tree_printed.
  split.
  - intros <-.
    assert (same expected expected = true) as -> by by apply same_eq.
    done.
  - intros Hne.
    assert (same expected actual = false) as Hs1.
    { apply not_true_is_false. by intros ?%same_eq. }
    assert (same actual expected = false) as Hs2.
    { apply not_true_is_false. by intros ?%same_eq. }
    rewrite Hs1, Hs2. simpl negb. simpl andb.
    destruct (truthy SKIP_AST_PRINT); simpl; [done|].
    unfold mbind, M_bind, out, err, try_except, modify, raise. simpl.
    destruct (show_tree expected _) as [[[]|ve] s1]; simpl;
      destruct (show_tree actual _) as [[[]|ve'] s2]; simpl; done.
Qed.

End AssertFormatEqual.

End TestSupportFacts.

(* ===================================================================== *)
(** ** The statements on the scenarios                                    *)
(* ===================================================================== *)

Module Checks.

Import Blackd Batch Scenario.

(** The three requests of the daemon's tests, answered as the tests
    expect. *)
Lemma new_req_response_witness :
  responses (served toy_format (mock_reader hello_single) mock_writer 88 true PYTHON36 [])
  = [b ("OK" ++ nl ++ hello_double)]
  /\ responses (served toy_format (mock_reader hello_double) mock_writer 88 true PYTHON36 [])
     = [b ("OK NO CHANGE" ++ nl)]
  /\ responses (served toy_format (mock_reader garbled) mock_writer 88 true PYTHON36 [])
     = [b ("ERROR" ++ nl ++ "Cannot parse: 1:11: what even (is this")].
Proof.
  split; [|split].
  - apply (proj1 (HandlerFacts.new_req_response toy_format
             (mock_reader hello_single) mock_writer 88 true PYTHON36 []
             (b hello_single) (u hello_single) eq_refl eq_refl)
             (u hello_double)).
    vm_compute. reflexivity.
  - apply (proj1 (proj2 (HandlerFacts.new_req_response toy_format
             (mock_reader hello_double) mock_writer 88 true PYTHON36 []
             (b hello_double) (u hello_double) eq_refl eq_refl))).
    vm_compute. reflexivity.
  - apply (proj2 (proj2 (HandlerFacts.new_req_response toy_format
             (mock_reader garbled) mock_writer 88 true PYTHON36 []
             (b garbled) (u garbled) eq_refl eq_refl))
             (Error (u "Cannot parse: 1:11: what even (is this"))).
    + discriminate.
    + vm_compute. reflexivity.
Defined.


(** The calls on the writer of the reset connection, as made. *)
Example reset_connection_calls :
  served toy_format reset_reader mock_writer 88 true PYTHON36 []
  = [Write (b ("ERROR" ++ nl ++ "[Errno 104] Connection reset by peer")); Drain].
Proof. vm_compute. reflexivity. Qed.

(** A lone byte 0xff is no UTF-8 and is answered with the decoder's
    message. *)
Lemma new_req_invalid_utf8_witness :
  exists start stop reason,
    decode [xff] = Raise (UnicodeDecodeError [xff] start stop reason)
    /\ fst (new_req toy_format broken_reader mock_writer 88 true PYTHON36 (enter []))
       = Ok tt
    /\ served toy_format broken_reader mock_writer 88 true PYTHON36 []
       = [Write (b ("ERROR" ++ nl)
                 ++ encode (str_of_exn (UnicodeDecodeError [xff] start stop reason)));
          Drain; Close].
Proof.
  apply (HandlerFacts.new_req_invalid_utf8 toy_format broken_reader mock_writer
           88 true PYTHON36 [] [xff] eq_refl).
  intros [s Hs]%CodecFacts.decode_valid. vm_compute in Hs. discriminate.
Defined.

(** The answer to the lone byte 0xff, as sent. *)
Example invalid_start_byte_response :
  served toy_format broken_reader mock_writer 88 true PYTHON36 []
  = [Write (b ("ERROR" ++ nl
               ++ "'utf-8' codec can't decode byte 0xff in position 0: invalid start byte"));
     Drain; Close].
Proof. vm_compute. reflexivity. Qed.

(** The same request from two peers, the second after the daemon has
    already printed a line. *)
Lemma new_req_deterministic_witness :
  served toy_format (mock_reader hello_single) mock_writer 88 true PYTHON36 []
  = served toy_format (mock_reader hello_single) {| peername := u "('::1', 50412)" |}
      88 true PYTHON36 [u "[Mock peer] got 20 bytes"]
  /\ responses (served toy_format (mock_reader hello_single) mock_writer 88 true PYTHON36 [])
     = responses
         (served toy_format (mock_reader hello_single) {| peername := u "('::1', 50412)" |}
            88 true PYTHON36 [u "[Mock peer] got 20 bytes"]).
Proof.
  apply (HandlerFacts.new_req_deterministic toy_format 88 true PYTHON36
           (mock_reader hello_single) mock_writer []
           (mock_reader hello_single) {| peername := u "('::1', 50412)" |}
           [u "[Mock peer] got 20 bytes"] (b hello_single) eq_refl eq_refl).
Defined.

(** Of two candidates, the one whose record is current is done and the
    other is to be processed; writing under line length 1 shows nothing
    under line length 2. *)
Lemma filter_cached_exact_witness :
  (clean ∈ snd (filter_cached toy_stat (read_cache 1 AUTO_DETECT cache_of_one) two_files)
   <-> read_cache 1 AUTO_DETECT cache_of_one !! clean = Some (toy_stat clean))
  /\ (failing ∈ fst (filter_cached toy_stat (read_cache 1 AUTO_DETECT cache_of_one) two_files)
      <-> read_cache 1 AUTO_DETECT cache_of_one !! failing <> Some (toy_stat failing))
  /\ read_cache 2 AUTO_DETECT
       (write_cache toy_stat (read_cache 1 AUTO_DETECT cache_of_one) [dirty]
          1 AUTO_DETECT true cache_of_one)
     = read_cache 2 AUTO_DETECT cache_of_one.
Proof.
  assert (clean ∈ two_files) as Hclean by (vm_compute; tauto).
  assert (failing ∈ two_files) as Hfailing by (vm_compute; tauto).
  assert (mkFingerprint 1 AUTO_DETECT <> mkFingerprint 2 AUTO_DETECT) as Hfp
    by discriminate.
  split; [|split].
  - apply (BatchFacts.filter_cached_exact toy_stat 1 AUTO_DETECT cache_of_one two_files
             clean 2 AUTO_DETECT [dirty] true Hclean Hfp).
  - apply (BatchFacts.filter_cached_exact toy_stat 1 AUTO_DETECT cache_of_one two_files
             failing 2 AUTO_DETECT [dirty] true Hfailing Hfp).
  - apply (BatchFacts.filter_cached_exact toy_stat 1 AUTO_DETECT cache_of_one two_files
             clean 2 AUTO_DETECT [dirty] true Hclean Hfp).
Defined.

(** C4 as stated fails: the file whose format attempt fails is in the
    cache after the run, with the record it had before. *)
Lemma failed_file_remains_cached :
  toy_format_file failing = Raise (Error (u "Cannot parse: 1:4: not actually python"))
  /\ failing ∈ two_files
  /\ read_cache 88 AUTO_DETECT cache_after_run !! failing = Some (1500000000, 14)%Z.
Proof.
  split; [reflexivity|]. split; [vm_compute; tauto|].
  vm_compute. reflexivity.
Qed.

(** C6 as stated fails: in check mode, with one file that would be
    reformatted and one that fails, the status is 123 and not 1. *)
Lemma check_with_failure_exits_123 :
  toy_format_file dirty = Ok true
  /\ toy_format_file failing = Raise (Error (u "Cannot parse: 1:4: not actually python"))
  /\ check_status = 123%Z
  /\ check_status <> 1%Z.
Proof.
  split; [reflexivity|]. split; [reflexivity|].
  assert (check_status = 123%Z) as -> by (vm_compute; reflexivity).
  split; [reflexivity | discriminate].
Qed.

(** The steps of [test_report_normal]: the status stays 0 over unchanged,
    reformatted and cached files, is 1 once check mode is set, and 123 from
    the first failure on. *)
Example report_normal_codes :
  let r1 := done (new_report false) "f1" Changed_NO in
  let r3 := done (done r1 "f2" Changed_YES) "f3" Changed_CACHED in
  let r4 := failed r3 "e1" (u "boom") in
  return_code r1 = 0%Z
  /\ return_code r3 = 0%Z
  /\ return_code (set_check r3 true) = 1%Z
  /\ return_code r4 = 123%Z
  /\ (change_count r4, same_count r4, failure_count r4) = (1, 2, 1).
Proof. repeat split. Qed.

(** [test_filter_cached]: of an uncached file, a cached one and a cached
    one that changed since, only the second is done. *)
Example filter_cached_three :
  filter_cached toy_stat {[ clean := toy_stat clean; failing := (0, 0)%Z ]}
    {[ dirty; clean; failing ]}
  = ({[ dirty; failing ]}, {[ clean ]}).
Proof. vm_compute. reflexivity. Qed.

(** [test_read_cache_line_lengths] and [test_cache_broken_file]: a record
    written under line length 1 is read back under 1 and not under 2, and
    a store that cannot be read back reads as empty. *)
Example read_cache_line_lengths :
  read_cache 1 AUTO_DETECT (write_cache toy_stat ∅ [clean] 1 AUTO_DETECT true ∅) !! clean
  = Some (toy_stat clean)
  /\ read_cache 2 AUTO_DETECT (write_cache toy_stat ∅ [clean] 1 AUTO_DETECT true ∅) !! clean
     = None
  /\ read_cache 88 AUTO_DETECT {[ mkFingerprint 88 AUTO_DETECT := Garbage ]} = ∅.
Proof. vm_compute. repeat split. Qed.

(** [test_invalid_include_exclude]: a malformed pattern gives status 2,
    for either option. *)
Example invalid_include_exclude :
  fst (Batch.main toy_format_file (Ok false) toy_stat toy_stat true toy_re_compile_ok
         88 false false AUTO_DETECT "**()(!!*)" "/build/" Stdin ∅) = 2%Z
  /\ fst (Batch.main toy_format_file (Ok false) toy_stat toy_stat true toy_re_compile_ok
            88 false false AUTO_DETECT "\.pyi?$" "**()(!!*)" Stdin ∅) = 2%Z.
Proof. split; reflexivity. Qed.

(** The daemon's startup line, and the state of the process after two
    connections: still in the loop, the server open. *)
Example main_serves_two :
  Blackd.main toy_format (u "18.9b0") 88 true false true false (u "localhost") 45484%Z
    (Ok tt)
    [Connection (mock_reader hello_single) mock_writer;
     Connection (mock_reader garbled) mock_writer] boot
  = (Raise Forever,
     mkProcess
       [u "blackd version 18.9b0 listening on localhost port 45484";
        u "[Mock peer] got 20 bytes";
        u "[Mock peer] format done, sending 21 bytes";
        u "[Mock peer] got 18 bytes";
        u "[Mock peer] error while formatting: Cannot parse: 1:11: what even (is this"]
       (Some {| host := u "localhost"; port := 45484%Z |})
       []
       [[Write (b ("OK" ++ nl ++ hello_double)); Drain; Close];
        [Write (b ("ERROR" ++ nl ++ "Cannot parse: 1:11: what even (is this"));
         Drain; Close]]).
Proof. vm_compute. reflexivity. Qed.


(** The same run, as it leaves the process. *)
Example main_interrupted_run :
  Blackd.main toy_format (u "18.9b0") 88 true false true false (u "localhost") 45484%Z
    (Ok tt)
    [Connection (mock_reader hello_single) mock_writer;
     Pending mock_writer;
     Interrupt;
     Connection (mock_reader garbled) mock_writer] boot
  = (Raise KeyboardInterrupt,
     mkProcess
       [u "blackd version 18.9b0 listening on localhost port 45484";
        u "[Mock peer] got 20 bytes";
        u "[Mock peer] format done, sending 21 bytes"]
       (Some {| host := u "localhost"; port := 45484%Z |})
       [ServerClose; ServerWaitClosed]
       [[Write (b ("OK" ++ nl ++ hello_double)); Drain; Close]; []]).
Proof. vm_compute. reflexivity. Qed.

(** A check-only run over the two files leaves the cache as it was, and so
    does a run that previews. *)
Example check_and_diff_leave_cache :
  snd (Batch.run toy_format_file (Ok false) toy_stat toy_stat true
         (Batch.Paths two_files) 88 Batch.WriteBack_NO AUTO_DETECT
         (Batch.new_report true) stale_cache) = stale_cache
  /\ snd (Batch.run toy_format_file (Ok false) toy_stat toy_stat true
            (Batch.Paths two_files) 88 Batch.WriteBack_DIFF AUTO_DETECT
            (Batch.new_report false) stale_cache) = stale_cache.
Proof. split; reflexivity. Qed.

(** A bind that fails: [main] ends with the error of its own cleanup. *)
Example main_bind_fails :
  Blackd.main toy_format (u "18.9b0") 88 true false true false (u "localhost") 45484%Z
    (Raise (OSError (u "[Errno 98] Address already in use"))) [] boot
  = (Raise (Exc (UnboundLocalError "server")), boot).
Proof. reflexivity. Qed.

(** The decoder's messages: a sequence cut short, a surrogate, an overlong
    form; and a text of one, two, three and four byte characters. *)
Example decoder_messages :
  (str_of_exn <$> [UnicodeDecodeError [x61; xe2; x82] 1 3 "unexpected end of data";
                   UnicodeDecodeError [xed; xa0; x80] 0 1 "invalid continuation byte";
                   UnicodeDecodeError [xc0; xaf] 0 1 "invalid start byte"])
  = [u "'utf-8' codec can't decode bytes in position 1-2: unexpected end of data";
     u "'utf-8' codec can't decode byte 0xed in position 0: invalid continuation byte";
     u "'utf-8' codec can't decode byte 0xc0 in position 0: invalid start byte"]
  /\ decode [x61; xe2; x82]
     = Raise (UnicodeDecodeError [x61; xe2; x82] 1 3 "unexpected end of data")
  /\ decode [xed; xa0; x80]
     = Raise (UnicodeDecodeError [xed; xa0; x80] 0 1 "invalid continuation byte")
  /\ decode [xc0; xaf] = Raise (UnicodeDecodeError [xc0; xaf] 0 1 "invalid start byte")
  /\ decode_from [] 0 [x61; xc3; xa9; xe2; x82; xac; xf0; x9f; x98; x80]
     = Ok [0x61; 0xE9; 0x20AC; 0x1F600]%N.
Proof. vm_compute. repeat split. Qed.

(** The first request of the daemon's tests, read back by the client. *)
Lemma text_round_trip_witness :
  exists payload,
    responses (served toy_format (mock_reader hello_single) mock_writer 88 true PYTHON36 [])
    = [b ("OK" ++ nl) ++ payload]
    /\ decode payload = Ok (u hello_double).
Proof.
  apply (proj1 (HandlerFacts.text_round_trip toy_format (mock_reader hello_single)
                  mock_writer 88 true PYTHON36 [] (u hello_single) eq_refl)
           (u hello_double)).
  vm_compute. reflexivity.
Defined.

(** A request cut in the middle of a character. *)
Lemma new_req_invalid_utf8_position_witness :
  exists start stop reason,
    responses (served toy_format truncated_reader mock_writer 88 true PYTHON36 [])
    = [b ("ERROR" ++ nl)
       ++ encode (str_of_exn (UnicodeDecodeError truncated start stop reason))]
    /\ (start < stop /\ stop <= length truncated)%nat
    /\ valid_utf8 (take start truncated).
Proof.
  apply (HandlerFacts.new_req_invalid_utf8_position toy_format truncated_reader
           mock_writer 88 true PYTHON36 [] truncated eq_refl).
  intros [s Hs]%CodecFacts.decode_valid. vm_compute in Hs. discriminate.
Defined.

(** The answer to it, as sent. *)
Example truncated_response :
  responses (served toy_format truncated_reader mock_writer 88 true PYTHON36 [])
  = [b ("ERROR" ++ nl
        ++ "'utf-8' codec can't decode bytes in position 1-2: unexpected end of data")].
Proof. vm_compute. reflexivity. Qed.

(** No argument and one empty argument: the one pair of different
    argument lists with the same text. *)
Lemma dump_to_stderr_lines_witness :
  TestSupport.dump_to_stderr [] = u (nl ++ nl)
  /\ TestSupport.dump_to_stderr [[]] = u (nl ++ nl)
  /\ (@nil str = [[]] \/ (@nil str = [] /\ [@nil char] = [[]])
      \/ (@nil str = [[]] /\ [@nil char] = [])).
Proof.
  split; [reflexivity|]. split; [reflexivity|].
  apply (TestSupportFacts.dump_to_stderr_lines [] [[]]).
  - constructor.
  - repeat constructor.
  - reflexivity.
Defined.

(** The data file without a marker. *)
Lemma read_data_no_output_witness :
  exists text, TestSupport.read_data toy_readlines (u "without_marker") true = Ok (text, text).
Proof.
  apply (TestSupportFacts.read_data_no_output toy_readlines (u "without_marker") true
           without_marker []).
  - vm_compute. reflexivity.
  - repeat constructor.
  - constructor.
Defined.

(** The data file with a marker: the line after the marker that is empty
    goes when the output is stripped. *)
Lemma read_data_split_witness :
  TestSupport.read_data toy_readlines (u "with_marker") true
  = Ok (u ("x  = 1" ++ nl), u ("x = 1" ++ nl)).
Proof.
  etransitivity.
  - apply (TestSupportFacts.read_data_split toy_readlines (u "with_marker") true
             [u ("x  = 1" ++ nl)] (u ("# output" ++ nl)) [u nl; u ("x = 1" ++ nl)]).
    + vm_compute. reflexivity.
    + repeat constructor.
    + vm_compute. reflexivity.
    + apply Exists_cons_hd. vm_compute. reflexivity.
  - vm_compute. reflexivity.
Defined.

Lemma read_data_shape_witness :
  TestSupport.stripped (u ("x  = 1" ++ nl)) /\ TestSupport.stripped (u ("x = 1" ++ nl)).
Proof.
  apply (TestSupportFacts.read_data_shape toy_readlines (u "with_marker") true).
  vm_compute. reflexivity.
Defined.

(** A failing coroutine run as a test while an earlier loop is closed. *)
Lemma async_test_runs_witness :
  fst (TestSupport.async_test failing_coroutine two_loops)
  = Raise (Error (u "no response"))
  /\ TestSupport.current (snd (TestSupport.async_test failing_coroutine two_loops)) = 1%nat
  /\ 2%nat ∈ TestSupport.closed_loops
               (snd (TestSupport.async_test failing_coroutine two_loops)).
Proof.
  apply (TestSupportFacts.async_test_runs failing_coroutine two_loops).
  repeat constructor.
Defined.

End Checks.
